(** * Shopify Excel product sync: executor, gateway and orchestrator

    A shallow embedding of [src/shopifyClient.js] (the rate-limited request
    executor and the three gateway operations), of [src/productSync.js]
    (payload construction and the per-handle orchestration loop) and of the
    grouping of product rows in [src/excelParser.js], followed by the
    properties of the specification that concern them.

    Conventions of the embedding.
    - A JavaScript number is a [JsNum]: an exact rational, [NaN] or one of
      the two infinities.  Rounding of IEEE doubles is not modelled; numbers
      read from a JSON body are finite.
    - [async] functions are computations of the monad [M]: they thread the
      state of the remote endpoint ([World]) and emit the events the
      function performs (HTTP posts, sleeps, log lines), and they complete
      with a value or with a thrown exception.
    - [sleep ms] is the event [EvSleep ms]: the requested duration, not the
      time the timer really takes.
    - Log lines are kept as structured messages ([Msg]); their formatting as
      text is not modelled.
    - Strings are sequences of bytes; [trim] and [toUpperCase] act on the
      ASCII range. *)

From Stdlib Require Import ZArith QArith Qround Lia Lqa Bool Ascii String List.
From stdpp Require Import base option list strings pretty gmap.
Import ListNotations.

Local Open Scope string_scope.
Local Open Scope list_scope.

(* ===================================================================== *)
(** ** JavaScript numbers *)
(* ===================================================================== *)

Inductive JsNum : Type :=
| Fin (q : Q)
| NaN
| PInf
| NInf.

Definition Qltb (x y : Q) : bool := negb (Qle_bool y x).

Definition Qsign (x : Q) : Z := Z.sgn (Qnum x).

(** [isNaN] *)
Definition js_isNaN (x : JsNum) : bool :=
  match x with NaN => true | _ => false end.

(** [x * y] *)
Definition js_mul (x y : JsNum) : JsNum :=
  let inf_of (s : Z) := if (0 <? s)%Z then PInf else if (s <? 0)%Z then NInf else NaN in
  match x, y with
  | NaN, _ | _, NaN => NaN
  | Fin a, Fin b => Fin (a * b)
  | Fin a, PInf | PInf, Fin a => inf_of (Qsign a)
  | Fin a, NInf | NInf, Fin a => inf_of (- Qsign a)%Z
  | PInf, PInf | NInf, NInf => PInf
  | PInf, NInf | NInf, PInf => NInf
  end.

(** [x < y]; false as soon as one side is [NaN]. *)
Definition js_lt (x y : JsNum) : bool :=
  match x, y with
  | NaN, _ | _, NaN => false
  | Fin a, Fin b => Qltb a b
  | NInf, NInf | PInf, _ => false
  | NInf, _ => true
  | Fin _, PInf => true
  | Fin _, NInf => false
  end.

(** [x <= y] *)
Definition js_le (x y : JsNum) : bool :=
  match x, y with
  | NaN, _ | _, NaN => false
  | Fin a, Fin b => Qle_bool a b
  | NInf, _ | _, PInf => true
  | _, _ => false
  end.

(** [Math.max(x, y)] *)
Definition js_max (x y : JsNum) : JsNum :=
  match x, y with
  | NaN, _ | _, NaN => NaN
  | _, _ => if js_lt x y then y else x
  end.

(* ===================================================================== *)
(** ** JavaScript strings and truthiness *)
(* ===================================================================== *)

Definition is_space (a : ascii) : bool :=
  let n := nat_of_ascii a in
  (n =? 32)%nat || ((9 <=? n)%nat && (n <=? 13)%nat).

Fixpoint drop_spaces (l : list ascii) : list ascii :=
  match l with
  | a :: l' => if is_space a then drop_spaces l' else l
  | [] => []
  end.

(** [s.trim()] *)
Definition trim (s : string) : string :=
  string_of_list_ascii
    (rev (drop_spaces (rev (drop_spaces (list_ascii_of_string s))))).

Definition upper_ascii (a : ascii) : ascii :=
  let n := nat_of_ascii a in
  if ((97 <=? n)%nat && (n <=? 122)%nat)%bool then ascii_of_nat (n - 32) else a.

(** [s.toUpperCase()] *)
Definition toUpperCase (s : string) : string :=
  string_of_list_ascii (map upper_ascii (list_ascii_of_string s)).

Fixpoint split_aux (sep : ascii) (cur : list ascii) (l : list ascii) : list string :=
  match l with
  | [] => [string_of_list_ascii (rev cur)]
  | a :: l' =>
      if Ascii.eqb a sep
      then string_of_list_ascii (rev cur) :: split_aux sep [] l'
      else split_aux sep (a :: cur) l'
  end.

(** [s.split(sep)] for a one-character separator. *)
Definition split (sep : ascii) (s : string) : list string :=
  split_aux sep [] (list_ascii_of_string s).

(** A string is truthy when it is not empty. *)
Definition truthy_str (s : string) : bool :=
  match s with EmptyString => false | _ => true end.

(** The value of a spreadsheet cell as the [xlsx] reader hands it over
    ([defval: ""] makes a blank cell the empty string; a column that does
    not exist in the sheet reads as [undefined]). *)
Inductive Cell : Type :=
| CUndefined
| CString (s : string)
| CNumber (q : Q)
| CBoolean (b : bool).

Definition truthy_cell (c : Cell) : bool :=
  match c with
  | CUndefined => false
  | CString s => truthy_str s
  | CNumber q => negb (Qeq_bool q 0)
  | CBoolean b => b
  end.

(** [c !== undefined && c !== ""] *)
Definition cell_present (c : Cell) : bool :=
  match c with
  | CUndefined => false
  | CString EmptyString => false
  | _ => true
  end.

(** A value read from a JSON body, as far as [typeof] tells them apart. *)
Inductive Json : Type :=
| JUndefined
| JNull
| JBool (b : bool)
| JNumber (q : Q)
| JString (s : string)
| JObject.

(* ===================================================================== *)
(** ** Wire data: requests, responses, errors *)
(* ===================================================================== *)

Record ThrottleStatus : Type := {
  ts_maximumAvailable : Json;
  ts_currentlyAvailable : Json;
  ts_restoreRate : Json
}.

(** [data.extensions.cost] *)
Record Cost : Type := {
  cost_requestedQueryCost : Json;
  cost_actualQueryCost : Json;
  cost_throttleStatus : option ThrottleStatus
}.

(** The object [extractThrottleInfo] builds. *)
Record ThrottleInfo : Type := {
  requestedQueryCost : Json;
  actualQueryCost : Json;
  maximumAvailable : Json;
  currentlyAvailable : Json;
  restoreRate : Json
}.

Record InventoryItem : Type := { ii_id : string }.

(** A node of [variants.nodes] in the answer to the lookup query. *)
Record VariantNode : Type := {
  vn_id : string;
  vn_sku : option string;
  vn_title : string;
  vn_inventoryItem : option InventoryItem
}.

Record Variants : Type := { nodes : option (list VariantNode) }.

Record Product : Type := {
  p_id : string;
  p_handle : string;
  p_title : string;
  p_variants : option Variants
}.

Record UserError : Type := { ue_field : string; ue_message : string }.

Record ProductSetPayload : Type := {
  ps_product : option Product;
  ps_userErrors : option (list UserError)
}.

Record InventoryPayload : Type := {
  inv_userErrors : option (list UserError)
}.

(** [data.data] *)
Record DataBlock : Type := {
  productByHandle : option Product;
  productSet : option ProductSetPayload;
  inventorySetQuantities : option InventoryPayload
}.

Record GraphQLError : Type := { ge_message : string }.

(** The body of a 2xx answer ([response.data]); it is a JSON object. *)
Record ResponseData : Type := {
  rd_errors : option (list GraphQLError);
  rd_cost : option Cost;          (* data?.extensions?.cost, None when falsy *)
  rd_data : option DataBlock
}.

(** [err.response] of an axios error. *)
Record ErrResponse : Type := {
  er_status : Z;
  er_retry_after : option string;  (* headers?.["retry-after"] *)
  er_body : option string          (* err.response.data, None when falsy *)
}.

Record AxiosError : Type := {
  ae_response : option ErrResponse;
  ae_message : string
}.

(** What [client.post] does: it resolves with a body or rejects. *)
Inductive Outcome : Type :=
| Resolved (data : ResponseData)
| Rejected (err : AxiosError).

(* ===================================================================== *)
(** ** Spreadsheet rows and the payloads built from them *)
(* ===================================================================== *)

(** One row of the [Products] sheet; a field is [CUndefined] when the
    column is not in the sheet. *)
Record ProductRow : Type := {
  ProductHandle : Cell;
  ProductTitle : Cell;
  ProductDescriptionHtml : Cell;
  ProductType : Cell;
  Vendor : Cell;
  Tags : Cell;
  Status : Cell;
  VariantSKU : Cell;
  VariantTitle : Cell;
  VariantPrice : Cell;
  VariantCompareAtPrice : Cell;
  VariantInventoryQuantity : Cell;
  VariantBarcode : Cell;
  VariantTaxable : Cell
}.

Record ImageRow : Type := { ImageSrc : Cell }.

Record MetafieldRow : Type := {
  mf_Namespace : Cell;
  mf_Key : Cell;
  mf_Type : Cell;
  mf_Value : Cell
}.

Record OptionValue : Type := { optionName : string; ov_name : string }.

Record InventoryQuantityInput : Type := {
  iq_locationId : string;
  iq_name : string;
  iq_quantity : JsNum
}.

(** An element of [input.variants]; [None] is a property that is absent or
    [undefined]. *)
Record VariantInput : Type := {
  vi_id : option string;
  vi_sku : option string;
  vi_price : option JsNum;
  vi_compareAtPrice : option JsNum;
  vi_optionValues : list OptionValue;
  vi_barcode : option string;
  vi_taxable : option bool;
  vi_tracked : bool                (* inventoryItem.tracked *)
}.

Record ProductOption : Type := { po_name : string; po_values : list string }.

Record MetafieldInput : Type := {
  mi_namespace : string;
  mi_key : string;
  mi_type : string;
  mi_value : string
}.

Record FileInput : Type := { originalSource : string; filename : string }.

Record ProductSetInput : Type := {
  psi_title : string;
  psi_handle : string;
  psi_descriptionHtml : string;
  psi_productType : option string;
  psi_vendor : option string;
  psi_tags : list string;
  psi_status : string;
  psi_productOptions : list ProductOption;
  psi_variants : list VariantInput;
  psi_metafields : option (list MetafieldInput);
  psi_files : option (list FileInput)
}.

Record QuantityLine : Type := {
  inventoryItemId : string;
  locationId : string;
  quantity : JsNum
}.

Record InventorySetQuantitiesInput : Type := {
  isq_name : string;
  isq_reason : string;
  isq_ignoreCompareQuantity : bool;
  isq_quantities : list QuantityLine
}.

(** The three GraphQL documents of the client. *)
Inductive Query : Type :=
| PRODUCT_BY_HANDLE_QUERY
| PRODUCT_SET_MUTATION
| INVENTORY_SET_QUANTITIES_MUTATION.

Inductive Variables : Type :=
| VarsHandle (handle : string)
| VarsProductSet (handle : string) (input : ProductSetInput)
| VarsInventory (input : InventorySetQuantitiesInput).

(** The body posted to the endpoint: [{ query, variables }]. *)
Record Request : Type := { query : Query; variables : Variables }.

Definition is_write (r : Request) : bool :=
  match query r with
  | PRODUCT_BY_HANDLE_QUERY => false
  | PRODUCT_SET_MUTATION | INVENTORY_SET_QUANTITIES_MUTATION => true
  end.

(* ===================================================================== *)
(** ** Events, exceptions and the monad of asynchronous functions *)
(* ===================================================================== *)

Inductive Level : Type := INFO | WARN | ERROR.

(** The log lines of the modules, by the values they interpolate. *)
Inductive Msg : Type :=
| MsgLowCredits (available : Q) (waitMs : Z)
| MsgGraphQLErrors (errs : list GraphQLError)
| MsgCost (t : ThrottleInfo)
| Msg429 (attempt : nat)
| MsgMaxRetries
| MsgWaiting (retryAfterMs : JsNum)
| MsgHttpError (attempt : nat) (message : string)
| MsgResponseBody (body : string)
| MsgFoundExisting (handle id : string)
| MsgNoExisting (handle : string)
| MsgInventoryUserErrors (errs : list UserError)
| MsgInventorySuccess (reason name : string)
| MsgNoLocation (handle : string)
| MsgNotFoundAfterUpsert (handle : string)
| MsgNoInventoryItem (sku handle : string)
| MsgNoInventoryRows (handle : string)
| MsgSettingInventory (handle : string) (lines : nat)
| MsgSyncing (handle : string)
| MsgDryRunWouldUpsert (handle : string)
| MsgDryRunCounts (variants files metafields : nat)
| MsgNoPayload (handle : string)
| MsgProductSetUserErrors (handle : string) (errs : list UserError)
| MsgUpserted (id handle title : string)
| MsgNoProduct (handle : string)
| MsgFailedUpsert (handle : string)
| MsgAllProcessed
| MsgSkippingRow (cell : Cell).

Inductive Event : Type :=
| EvPost (r : Request)
| EvSleep (ms : JsNum)
| EvLog (lvl : Level) (m : Msg).

(** What a [throw] carries. [ExFuel] is not a JavaScript exception: it marks
    a loop of the model that ran out of fuel, and [callShopifyGraphQL] is
    shown never to produce it. *)
Inductive Exn : Type :=
| ExAxios (err : AxiosError)
| ExUnexpectedState
| ExTypeError
| ExFuel.

(** The argument of [syncAllProductsFromExcel]: [productsByHandle] is
    iterated in insertion order, the other two maps are only read by
    key. *)
Record Grouped : Type := {
  productsByHandle : list (string * list ProductRow);
  imagesByHandle : gmap string (list ImageRow);
  metafieldsByHandle : gmap string (list MetafieldRow)
}.

(* ===================================================================== *)
(** ** A scripted endpoint and the decimal fragment of the built-ins

    Used by the worked examples only: the properties below hold for every
    endpoint and for every [parseFloat], [String] and [Number]. *)
(* ===================================================================== *)

Definition network_error : AxiosError :=
  {| ae_response := None; ae_message := "connect ECONNREFUSED" |}.

Definition too_many_requests (retry_after : option string) : AxiosError :=
  {| ae_response := Some {| er_status := 429; er_retry_after := retry_after;
                            er_body := None |};
     ae_message := "Request failed with status code 429" |}.

Definition server_error : AxiosError :=
  {| ae_response := Some {| er_status := 500; er_retry_after := None;
                            er_body := Some "Internal Server Error" |};
     ae_message := "Request failed with status code 500" |}.

(** An endpoint that plays back a list of outcomes, whatever it is asked;
    once the list is used up the connection fails. *)
Definition scripted_post (r : Request) (w : list Outcome) : Outcome * list Outcome :=
  match w with
  | o :: w' => (o, w')
  | [] => (Rejected network_error, [])
  end.

Definition digit_of (a : ascii) : option Z :=
  let n := nat_of_ascii a in
  if ((48 <=? n)%nat && (n <=? 57)%nat)%bool then Some (Z.of_nat (n - 48)) else None.

(** Reads a run of digits: its value, its length and what follows it. *)
Fixpoint read_digits (acc : Z) (len : nat) (l : list ascii) : Z * nat * list ascii :=
  match l with
  | a :: l' =>
      match digit_of a with
      | Some d => read_digits (acc * 10 + d) (S len) l'
      | None => (acc, len, l)
      end
  | [] => (acc, len, l)
  end.

(** An unsigned decimal literal [ddd], [ddd.ddd], [.ddd] or [ddd.] at the
    head of [l], and what follows it. *)
Definition read_decimal (l : list ascii) : option (Q * list ascii) :=
  let '(i, ni, l1) := read_digits 0 0 l in
  match l1 with
  | "."%char :: l2 =>
      let '(f, nf, l3) := read_digits 0 0 l2 in
      if ((ni =? 0)%nat && (nf =? 0)%nat)%bool then None
      else Some (Qred (inject_Z i + (f # Pos.of_nat (10 ^ nf))), l3)
  | _ => if (ni =? 0)%nat then None else Some (inject_Z i, l1)
  end.

Definition read_signed (l : list ascii) : option (Q * list ascii) :=
  match l with
  | "-"%char :: l' =>
      match read_decimal l' with Some (q, r) => Some (Qred (- q), r) | None => None end
  | "+"%char :: l' => read_decimal l'
  | _ => read_decimal l
  end.

(** [parseFloat] on decimal literals without exponent: leading blanks are
    skipped and anything after the literal is ignored. *)
Definition parseFloat_decimal (s : string) : JsNum :=
  match read_signed (drop_spaces (list_ascii_of_string s)) with
  | Some (q, _) => Fin q
  | None => NaN
  end.

(** [Number(s)] on decimal literals without exponent: the whole trimmed
    string has to be the literal, and the blank string is 0. *)
Definition number_of_decimal (s : string) : JsNum :=
  match list_ascii_of_string (trim s) with
  | [] => Fin 0
  | l => match read_signed l with
         | Some (q, []) => Fin q
         | _ => NaN
         end
  end.

(** [String(n)] on integers. *)
Definition string_of_integer (q : Q) : string := pretty (Qfloor q).

(** Sample data of the examples. *)
Definition sample_location : string := "gid://shopify/Location/1".

Definition sample_row (sku title : string) (qty : Cell) : ProductRow :=
  {| ProductHandle := CString "shirt-1";
     ProductTitle := CString "Shirt";
     ProductDescriptionHtml := CString "<p>A shirt</p>";
     ProductType := CString "Apparel";
     Vendor := CString "Acme";
     Tags := CString "summer, cotton";
     Status := CUndefined;
     VariantSKU := CString sku;
     VariantTitle := CString title;
     VariantPrice := CNumber 20;
     VariantCompareAtPrice := CString "";
     VariantInventoryQuantity := qty;
     VariantBarcode := CString "";
     VariantTaxable := CString "TRUE" |}.

Definition sample_node (id sku item : string) : VariantNode :=
  {| vn_id := id; vn_sku := Some sku; vn_title := sku;
     vn_inventoryItem := Some {| ii_id := item |} |}.

Definition sample_product (ns : list VariantNode) : Product :=
  {| p_id := "gid://shopify/Product/1"; p_handle := "shirt-1"; p_title := "Shirt";
     p_variants := Some {| nodes := Some ns |} |}.

Definition sample_cost (available rate : Json) : Cost :=
  {| cost_requestedQueryCost := JNumber 12;
     cost_actualQueryCost := JNumber 10;
     cost_throttleStatus := Some {| ts_maximumAvailable := JNumber 1000;
                                    ts_currentlyAvailable := available;
                                    ts_restoreRate := rate |} |}.

Definition lookup_answer (cost : option Cost) (p : option Product) : ResponseData :=
  {| rd_errors := None; rd_cost := cost;
     rd_data := Some {| productByHandle := p; productSet := None;
                        inventorySetQuantities := None |} |}.

Definition upsert_answer (p : option Product) (errs : list UserError) : ResponseData :=
  {| rd_errors := None; rd_cost := None;
     rd_data := Some {| productByHandle := None;
                        productSet := Some {| ps_product := p;
                                              ps_userErrors := Some errs |};
                        inventorySetQuantities := None |} |}.

Definition inventory_answer : ResponseData :=
  {| rd_errors := None; rd_cost := None;
     rd_data := Some {| productByHandle := None; productSet := None;
                        inventorySetQuantities :=
                          Some {| inv_userErrors := Some [] |} |} |}.

(** A body with a GraphQL error and a low-credit envelope, as the remote
    sends it when a query is throttled. *)
Definition throttled_answer : ResponseData :=
  {| rd_errors := Some [ {| ge_message := "Throttled" |} ];
     rd_cost := Some (sample_cost (JNumber 30) (JNumber 10));
     rd_data := None |}.

Definition sample_grouped (entries : list (string * list ProductRow)) : Grouped :=
  {| productsByHandle := entries; imagesByHandle := ∅; metafieldsByHandle := ∅ |}.

(* ===================================================================== *)
(** ** Start-up data: environment, workbook, errors and log lines *)
(* ===================================================================== *)

(** What [getConfig] returns. *)
Record Config : Type := {
  cfg_storeDomain : string;
  cfg_accessToken : string;
  cfg_apiVersion : string;
  cfg_defaultLocationId : string
}.

(** A row as [sheet_to_json] gives it: an object from column names to
    cells. *)
Definition read_field (row : gmap string Cell) (column : string) : Cell :=
  default CUndefined (row !! column).

(** A workbook, by the rows [sheet_to_json] reads from each of its sheets
    (with [defval: ""]). *)
Record Workbook : Type := { Sheets : gmap string (list (gmap string Cell)) }.

(** The rows as the sync reads them: the properties it accesses. *)
Definition product_row_of (row : gmap string Cell) : ProductRow :=
  {| ProductHandle := read_field row "ProductHandle";
     ProductTitle := read_field row "ProductTitle";
     ProductDescriptionHtml := read_field row "ProductDescriptionHtml";
     ProductType := read_field row "ProductType";
     Vendor := read_field row "Vendor";
     Tags := read_field row "Tags";
     Status := read_field row "Status";
     VariantSKU := read_field row "VariantSKU";
     VariantTitle := read_field row "VariantTitle";
     VariantPrice := read_field row "VariantPrice";
     VariantCompareAtPrice := read_field row "VariantCompareAtPrice";
     VariantInventoryQuantity := read_field row "VariantInventoryQuantity";
     VariantBarcode := read_field row "VariantBarcode";
     VariantTaxable := read_field row "VariantTaxable" |}.

Definition image_row_of (row : gmap string Cell) : ImageRow :=
  {| ImageSrc := read_field row "ImageSrc" |}.

Definition metafield_row_of (row : gmap string Cell) : MetafieldRow :=
  {| mf_Namespace := read_field row "Namespace";
     mf_Key := read_field row "Key";
     mf_Type := read_field row "Type";
     mf_Value := read_field row "Value" |}.

Definition REQUIRED_PRODUCT_COLUMNS : list string :=
  ["ProductHandle"; "ProductTitle"; "ProductDescriptionHtml"; "ProductType";
   "Vendor"; "Tags"; "VariantSKU"; "VariantTitle"; "VariantPrice"].

Definition REQUIRED_IMAGE_COLUMNS : list string := ["ProductHandle"; "ImageSrc"].

Definition REQUIRED_METAFIELD_COLUMNS : list string :=
  ["ProductHandle"; "Namespace"; "Key"; "Type"; "Value"].

(** The errors of the start-up code, by what their message interpolates;
    [ErrSync] is what the sync itself threw. *)
Inductive StartupError : Type :=
| ErrMissingEnv (missing : list string)
| ErrReadFile (filePath : string)
| ErrNoProductData
| ErrMissingColumns (sheetName : string) (missing : list string)
| ErrSync (e : Exn).

(** The log lines of [excelParser.js] and [index.js]. *)
Inductive StartupMsg : Type :=
| SMsgSheetNotFound (sheetName : string)
| SMsgNoData (sheetName : string)
| SMsgSkippingImageRow (handle src : Cell)
| SMsgSkippingMetafieldRow (handle ns key type : Cell)
| SMsgReadingFile (filePath : string)
| SMsgUniqueHandles (n : nat)
| SMsgHandlesWithImages (n : nat)
| SMsgHandlesWithMetafields (n : nat)
| SMsgParsingCompleted
| SMsgTotalVariantRows (n : nat)
| SMsgUsingStore (storeDomain apiVersion : string)
| SMsgParseSummary
| SMsgSummaryProducts (n : nat)
| SMsgSummaryImages (n : nat)
| SMsgSummaryMetafields (n : nat)
| SMsgSummaryDryRun (dryRun : bool)
| SMsgFatal (err : StartupError).

(** What the command line does, in order: its own log lines and the events
    of the functions of the sync it calls. *)
Inductive StartupLog : Type :=
| SLog (lvl : Level) (m : StartupMsg)
| SEvent (e : Event).

(** What [parseExcelFile] returns. *)
Record Parsed : Type := {
  pf_grouped : Grouped;
  pf_productRows : list (gmap string Cell);
  pf_imageRows : list (gmap string Cell);
  pf_metafieldRows : list (gmap string Cell)
}.

(** How [main] ends: it returns, or it calls [process.exit]. *)
Inductive ProcessEnd : Type :=
| Returned
| Exited (code : Z).

(** [process.env.NAME] is truthy. *)
Definition env_set (env : gmap string string) (name : string) : bool :=
  match env !! name with
  | Some v => truthy_str v
  | None => false
  end.

Definition REQUIRED_ENV : list string :=
  ["SHOPIFY_STORE_DOMAIN"; "SHOPIFY_ACCESS_TOKEN"; "SHOPIFY_API_VERSION";
   "SHOPIFY_DEFAULT_LOCATION_ID"].

(** config.js [getConfig], on [process.env] as [dotenv.config()] left it. *)
Definition getConfig (env : gmap string string) : StartupError + Config :=
  let missing : list string := [] in
  let missing := if negb (env_set env "SHOPIFY_STORE_DOMAIN")
                 then missing ++ ["SHOPIFY_STORE_DOMAIN"] else missing in
  let missing := if negb (env_set env "SHOPIFY_ACCESS_TOKEN")
                 then missing ++ ["SHOPIFY_ACCESS_TOKEN"] else missing in
  let missing := if negb (env_set env "SHOPIFY_API_VERSION")
                 then missing ++ ["SHOPIFY_API_VERSION"] else missing in
  let missing := if negb (env_set env "SHOPIFY_DEFAULT_LOCATION_ID")
                 then missing ++ ["SHOPIFY_DEFAULT_LOCATION_ID"] else missing in
  match missing with
  | _ :: _ => inl (ErrMissingEnv missing)
  | [] =>
      inr {| cfg_storeDomain := default "" (env !! "SHOPIFY_STORE_DOMAIN");
             cfg_accessToken := default "" (env !! "SHOPIFY_ACCESS_TOKEN");
             cfg_apiVersion := default "" (env !! "SHOPIFY_API_VERSION");
             cfg_defaultLocationId := default "" (env !! "SHOPIFY_DEFAULT_LOCATION_ID") |}
  end.

(** Sample start-up data of the examples. *)
Definition sample_env : gmap string string :=
  {[ "SHOPIFY_STORE_DOMAIN" := "acme.myshopify.com";
     "SHOPIFY_ACCESS_TOKEN" := "shpca_1";
     "SHOPIFY_API_VERSION" := "2025-10";
     "SHOPIFY_DEFAULT_LOCATION_ID" := sample_location ]}.

Definition sample_product_cells (handle sku title : string) (qty : Cell)
  : gmap string Cell :=
  {[ "ProductHandle" := CString handle;
     "ProductTitle" := CString "Shirt";
     "ProductDescriptionHtml" := CString "<p>A shirt</p>";
     "ProductType" := CString "Apparel";
     "Vendor" := CString "Acme";
     "Tags" := CString "summer, cotton";
     "VariantSKU" := CString sku;
     "VariantTitle" := CString title;
     "VariantPrice" := CNumber 20;
     "VariantInventoryQuantity" := qty ]}.

Definition sample_image_cells (handle src : string) : gmap string Cell :=
  {[ "ProductHandle" := CString handle; "ImageSrc" := CString src ]}.

Definition sample_workbook : Workbook :=
  {| Sheets :=
       {[ "Products" := [sample_product_cells " shirt-1 " "S1" "Small" (CNumber 10);
                         sample_product_cells "shirt-2" "S3" "Small" (CNumber 5);
                         sample_product_cells "" "S0" "None" (CString "");
                         sample_product_cells "shirt-1" "S2" "Large" (CString "")];
          "Images" := [sample_image_cells "shirt-1" "https://cdn.example/a.jpg";
                       sample_image_cells "shirt-1" " ";
                       sample_image_cells "shirt-2" "https://cdn.example/img/"] ]} |}.

Definition sample_readFile (filePath : string) : option Workbook :=
  if String.eqb filePath "products.xlsx" then Some sample_workbook else None.

(** What the sample workbook is parsed into. *)
Definition sample_parsed : Parsed :=
  let productRows := default [] (Sheets sample_workbook !! "Products") in
  let imageRows := default [] (Sheets sample_workbook !! "Images") in
  {| pf_grouped :=
       {| productsByHandle :=
            [("shirt-1",
              [product_row_of (sample_product_cells " shirt-1 " "S1" "Small"
                                 (CNumber 10));
               product_row_of (sample_product_cells "shirt-1" "S2" "Large"
                                 (CString ""))]);
             ("shirt-2",
              [product_row_of (sample_product_cells "shirt-2" "S3" "Small"
                                 (CNumber 5))])];
          imagesByHandle :=
            {[ "shirt-1" := [ {| ImageSrc := CString "https://cdn.example/a.jpg" |} ];
               "shirt-2" := [ {| ImageSrc := CString "https://cdn.example/img/" |} ] ]};
          metafieldsByHandle := ∅ |};
     pf_productRows := productRows;
     pf_imageRows := imageRows;
     pf_metafieldRows := [] |}.

Section Sync.

(** The remote endpoint: a state and the answer of [client.post]. *)
Context {World : Type}.
Variable post : Request -> World -> Outcome * World.

(** Built-ins of the language taken as given. *)
Variable parseFloat : string -> JsNum.
Variable numberToString : Q -> string.       (* String(n) for a number n *)
Variable stringToNumber : string -> JsNum.   (* Number(s) for a string s *)

(** [CONFIG.defaultLocationId] *)
Variable defaultLocationId : string.

Record Run (A : Type) : Type := mkRun {
  result : A + Exn;
  after : World;
  events : list Event
}.
Arguments mkRun {A}.
Arguments result {A}.
Arguments after {A}.
Arguments events {A}.

Definition M (A : Type) : Type := World -> Run A.

Definition ret {A} (a : A) : M A := fun w => mkRun (inl a) w [].

Definition throw {A} (e : Exn) : M A := fun w => mkRun (inr e) w [].

Definition bind {A B} (m : M A) (k : A -> M B) : M B := fun w =>
  let r := m w in
  match result r with
  | inl a => let r' := k a (after r) in
             mkRun (result r') (after r') (events r ++ events r')
  | inr e => mkRun (inr e) (after r) (events r)
  end.

(** [try { m } catch (e) { h e }] *)
Definition try_catch {A} (m : M A) (h : Exn -> M A) : M A := fun w =>
  let r := m w in
  match result r with
  | inl a => r
  | inr e => let r' := h e (after r) in
             mkRun (result r') (after r') (events r ++ events r')
  end.

Definition emit (e : Event) : M unit := fun w => mkRun (inl tt) w [e].

Definition log (lvl : Level) (m : Msg) : M unit := emit (EvLog lvl m).
Definition info := log INFO.
Definition warn := log WARN.
Definition error := log ERROR.

(** [sleep(ms)] *)
Definition sleep (ms : JsNum) : M unit := emit (EvSleep ms).

(** [client.post("", { query, variables })]; a rejection is handed back
    as a value and dispatched by the caller's [catch] branch. *)
Definition client_post (r : Request) : M Outcome := fun w =>
  let '(o, w') := post r w in mkRun (inl o) w' [EvPost r].

Notation "x <- m ;; k" := (bind m (fun x => k))
  (at level 100, m at next level, right associativity).
Notation "m ;;; k" := (bind m (fun _ => k))
  (at level 100, right associativity).


(* =================================================================== *)
(** *** shopifyClient.js: the rate-limited request executor *)
(* =================================================================== *)

Definition MAX_RETRIES : nat := 5.
Definition INITIAL_BACKOFF_MS : Z := 1000.

Definition extractThrottleInfo (data : ResponseData) : option ThrottleInfo :=
  match rd_cost data with
  | None => None
  | Some cost =>
      (* const throttle = cost.throttleStatus || {} *)
      let field (f : ThrottleStatus -> Json) :=
        match cost_throttleStatus cost with
        | Some throttle => f throttle
        | None => JUndefined
        end in
      Some {| requestedQueryCost := cost_requestedQueryCost cost;
              actualQueryCost := cost_actualQueryCost cost;
              maximumAvailable := field ts_maximumAvailable;
              currentlyAvailable := field ts_currentlyAvailable;
              restoreRate := field ts_restoreRate |}
  end.

Definition LOW_CREDITS_THRESHOLD : Q := 50.

(** [Math.max(0, x)] on finite numbers. *)
Definition Qmax0 (x : Q) : Q := if Qltb 0 x then x else 0%Q.

(** The duration computed in the low-credit branch. *)
Definition throttleWaitMs (currentlyAvailable restoreRate : Q) : Z :=
  let desired := (LOW_CREDITS_THRESHOLD * 2)%Q in
  let deficit := Qmax0 (desired - currentlyAvailable) in
  let secondsNeeded := (deficit / restoreRate)%Q in
  Qceiling (secondsNeeded * 1000).

Definition applyPreemptiveThrottleWait (throttleInfo : option ThrottleInfo) : M unit :=
  match throttleInfo with
  | None => ret tt
  | Some t =>
      match currentlyAvailable t, restoreRate t with
      | JNumber avail, JNumber rate =>
          if Qltb avail LOW_CREDITS_THRESHOLD then
            let desired := (LOW_CREDITS_THRESHOLD * 2)%Q in
            let deficit := Qmax0 (desired - avail) in
            if Qltb 0 deficit && Qltb 0 rate then
              let waitMs := throttleWaitMs avail rate in
              warn (MsgLowCredits avail waitMs) ;;;
              sleep (Fin (inject_Z waitMs))
            else ret tt
          else ret tt
      | _, _ => ret tt     (* typeof ... !== "number" *)
      end
  end.

(** [data.errors && data.errors.length > 0] *)
Definition has_errors (data : ResponseData) : bool :=
  match rd_errors data with
  | Some (_ :: _) => true
  | _ => false
  end.

(** The wait chosen after a 429: the backoff, raised to the
    [retry-after] header when that parses to a number. *)
Definition retryAfterMs_of (backoffMs : Z) (retryAfterHeader : option string) : JsNum :=
  let retryAfterMs := Fin (inject_Z backoffMs) in
  match retryAfterHeader with
  | Some h =>
      if truthy_str h then
        let retrySeconds := parseFloat h in
        if negb (js_isNaN retrySeconds)
        then js_max retryAfterMs (js_mul retrySeconds (Fin 1000))
        else retryAfterMs
      else retryAfterMs
  | None => retryAfterMs
  end.

(** The end of the [catch] branch for anything that is not a 429. *)
Definition rethrow_http_error (attempt : nat) (err : AxiosError) : M ResponseData :=
  error (MsgHttpError attempt (ae_message err)) ;;;
  match ae_response err with
  | Some {| er_body := Some body |} => error (MsgResponseBody body)
  | _ => ret tt
  end ;;;
  throw (ExAxios err).

(** The [while (attempt <= MAX_RETRIES)] loop of [callShopifyGraphQL],
    started at the loop head with the given [attempt] and [backoffMs].
    Nothing but [client.post] can throw inside the [try] block, so the
    [catch] branch is the [Rejected] case of its outcome. *)
Fixpoint retry_loop (fuel : nat) (req : Request) (attempt : nat) (backoffMs : Z)
  : M ResponseData :=
  match fuel with
  | O => throw ExFuel
  | S fuel' =>
      if (attempt <=? MAX_RETRIES)%nat then
        let attempt := (attempt + 1)%nat in
        o <- client_post req ;;
        match o with
        | Resolved data =>
            if has_errors data then
              error (MsgGraphQLErrors (default [] (rd_errors data))) ;;;
              ret data
            else
              let throttleInfo := extractThrottleInfo data in
              match throttleInfo with
              | Some t =>
                  info (MsgCost t) ;;;
                  applyPreemptiveThrottleWait throttleInfo
              | None => ret tt
              end ;;;
              ret data
        | Rejected err =>
            match ae_response err with
            | Some resp =>
                if (er_status resp =? 429)%Z then
                  warn (Msg429 attempt) ;;;
                  let retryAfterMs := retryAfterMs_of backoffMs (er_retry_after resp) in
                  if (MAX_RETRIES <? attempt)%nat then
                    error MsgMaxRetries ;;;
                    throw (ExAxios err)
                  else
                    warn (MsgWaiting retryAfterMs) ;;;
                    sleep retryAfterMs ;;;
                    retry_loop fuel' req attempt (backoffMs * 2)%Z
                else rethrow_http_error attempt err
            | None => rethrow_http_error attempt err
            end
        end
      else throw ExUnexpectedState
  end.

Definition callShopifyGraphQL (query : Query) (variables : Variables) : M ResponseData :=
  retry_loop (S (S MAX_RETRIES)) {| query := query; variables := variables |}
             0 INITIAL_BACKOFF_MS.

(* =================================================================== *)
(** *** shopifyClient.js: the gateway operations *)
(* =================================================================== *)

Definition fetchProductByHandle (handle : string) : M (option Product) :=
  data <- callShopifyGraphQL PRODUCT_BY_HANDLE_QUERY (VarsHandle handle) ;;
  (* data?.data?.productByHandle || null *)
  let product := rd_data data ≫= productByHandle in
  match product with
  | Some p => info (MsgFoundExisting handle (p_id p))
  | None => info (MsgNoExisting handle)
  end ;;;
  ret product.

Definition setInventoryQuantities (input : InventorySetQuantitiesInput)
  : M (option InventoryPayload) :=
  data <- callShopifyGraphQL INVENTORY_SET_QUANTITIES_MUTATION (VarsInventory input) ;;
  let payload := rd_data data ≫= inventorySetQuantities in
  match payload ≫= inv_userErrors with
  | Some (e :: es) => error (MsgInventoryUserErrors (e :: es))
  | _ => info (MsgInventorySuccess (isq_reason input) (isq_name input))
  end ;;;
  ret payload.


(* =================================================================== *)
(** *** productSync.js: building the [productSet] input *)
(* =================================================================== *)

(** [String(c)] *)
Definition cell_to_string (c : Cell) : string :=
  match c with
  | CUndefined => "undefined"
  | CString s => s
  | CNumber q => numberToString q
  | CBoolean true => "true"
  | CBoolean false => "false"
  end.

(** [String(c || "")] *)
Definition str_or_empty (c : Cell) : string :=
  if truthy_cell c then cell_to_string c else "".

(** [Number(c)] *)
Definition cell_to_number (c : Cell) : JsNum :=
  match c with
  | CUndefined => NaN
  | CString s => stringToNumber s
  | CNumber q => Fin q
  | CBoolean true => Fin 1
  | CBoolean false => Fin 0
  end.

Definition parseTags (tagsString : Cell) : list string :=
  if negb (truthy_cell tagsString) then []
  else filter (fun t => truthy_str t = true)
              (map trim (split "," (cell_to_string tagsString))).

Definition mapStatus (raw : Cell) : string :=
  if negb (truthy_cell raw) then "ACTIVE"
  else
    let s := toUpperCase (trim (cell_to_string raw)) in
    if bool_decide (s ∈ ["ACTIVE"; "DRAFT"; "ARCHIVED"; "UNLISTED"]) then s
    else "ACTIVE".

(** [Array.from(new Set(l))]: the first occurrence of each element, in
    order. *)
Fixpoint set_order (seen : gset string) (l : list string) : list string :=
  match l with
  | [] => []
  | x :: l' =>
      if bool_decide (x ∈ seen) then set_order seen l'
      else x :: set_order ({[x]} ∪ seen) l'
  end.

(** [existingVariantsBySku]: the nodes of the existing product indexed by
    their truthy SKU; a later node replaces an earlier one. *)
Definition index_by_sku (m : gmap string VariantNode) (v : VariantNode)
  : gmap string VariantNode :=
  match vn_sku v with
  | Some sku => if truthy_str sku then <[sku := v]> m else m
  | None => m
  end.

Definition existing_nodes (existingProduct : option Product) : list VariantNode :=
  match existingProduct with
  | Some {| p_variants := Some {| nodes := Some ns |} |} => ns
  | _ => []
  end.

Definition existingVariantsBySku (existingProduct : option Product)
  : gmap string VariantNode :=
  foldl index_by_sku ∅ (existing_nodes existingProduct).

(** The local [inventoryQuantities] of the variant callback; the source
    computes it and does not attach it to the variant. *)
Definition variant_inventoryQuantities (row : ProductRow)
  : option (list InventoryQuantityInput) :=
  let qtyRaw := VariantInventoryQuantity row in
  if truthy_str defaultLocationId && cell_present qtyRaw then
    let qty := cell_to_number qtyRaw in
    if negb (js_isNaN qty)
    then Some [ {| iq_locationId := defaultLocationId;
                   iq_name := "available";
                   iq_quantity := qty |} ]
    else None
  else None.

(** The callback of [productRowsForHandle.map]. *)
Definition variantInput_of (bySku : gmap string VariantNode) (row : ProductRow)
  : VariantInput :=
  let sku := trim (str_or_empty (VariantSKU row)) in
  let variantTitle := trim (str_or_empty (VariantTitle row)) in
  let priceRaw := VariantPrice row in
  let compareAtRaw := VariantCompareAtPrice row in
  let existing := if truthy_str sku then bySku !! sku else None in
  {| vi_id := match existing with
              | Some v => if truthy_str (vn_id v) then Some (vn_id v) else None
              | None => None
              end;
     vi_sku := if truthy_str sku then Some sku else None;
     vi_price := if cell_present priceRaw
                 then Some (cell_to_number priceRaw) else None;
     vi_compareAtPrice := if cell_present compareAtRaw
                          then Some (cell_to_number compareAtRaw) else None;
     vi_optionValues := if truthy_str variantTitle
                        then [ {| optionName := "Title"; ov_name := variantTitle |} ]
                        else [];
     vi_barcode := if truthy_cell (VariantBarcode row)
                   then Some (cell_to_string (VariantBarcode row)) else None;
     vi_taxable := if String.eqb (toUpperCase (trim (str_or_empty (VariantTaxable row))))
                                 "TRUE"
                   then Some true else None;
     vi_tracked := true |}.

Definition metafieldInput_of (m : MetafieldRow) : MetafieldInput :=
  {| mi_namespace := trim (str_or_empty (mf_Namespace m));
     mi_key := trim (str_or_empty (mf_Key m));
     mi_type := trim (str_or_empty (mf_Type m));
     mi_value := str_or_empty (mf_Value m) |}.

(** The callback of [imagesForHandle.map]; [None] is the [null] that
    [filter(Boolean)] drops. *)
Definition fileInput_of (img : ImageRow) : option FileInput :=
  let src := trim (str_or_empty (ImageSrc img)) in
  if negb (truthy_str src) then None
  else
    let urlParts := split "/" src in
    let lastPart := List.last urlParts "" in
    let filename := if truthy_str lastPart then lastPart else "image.jpg" in
    Some {| originalSource := src; filename := filename |}.

(** [None] when [productRowsForHandle] is empty (the read of
    [firstRow.ProductTitle] throws a [TypeError] then). *)
Definition buildProductSetInput
    (handle : string) (productRowsForHandle : list ProductRow)
    (existingProduct : option Product)
    (imagesForHandle : list ImageRow) (metafieldsForHandle : list MetafieldRow)
  : option ProductSetInput :=
  match productRowsForHandle with
  | [] => None
  | firstRow :: _ =>
      let title := trim (str_or_empty (ProductTitle firstRow)) in
      let descriptionHtml := str_or_empty (ProductDescriptionHtml firstRow) in
      let productType := trim (str_or_empty (ProductType firstRow)) in
      let vendor := trim (str_or_empty (Vendor firstRow)) in
      let tags := parseTags (Tags firstRow) in
      let status := mapStatus (Status firstRow) in
      let uniqueVariantTitles :=
        set_order ∅
          (filter (fun v => truthy_str v = true)
             (map (fun r => trim (str_or_empty (VariantTitle r)))
                  productRowsForHandle)) in
      let productOptions :=
        match uniqueVariantTitles with
        | _ :: _ => [ {| po_name := "Title"; po_values := uniqueVariantTitles |} ]
        | [] => []
        end in
      let bySku := existingVariantsBySku existingProduct in
      let variants := map (variantInput_of bySku) productRowsForHandle in
      let metafields := map metafieldInput_of metafieldsForHandle in
      let files := omap fileInput_of imagesForHandle in
      Some {| psi_title := title;
              psi_handle := handle;
              psi_descriptionHtml := descriptionHtml;
              psi_productType := if truthy_str productType then Some productType else None;
              psi_vendor := if truthy_str vendor then Some vendor else None;
              psi_tags := tags;
              psi_status := status;
              psi_productOptions := productOptions;
              psi_variants := variants;
              psi_metafields := match metafields with _ :: _ => Some metafields | [] => None end;
              psi_files := match files with _ :: _ => Some files | [] => None end |}
  end.


(* =================================================================== *)
(** *** productSync.js: inventory reconciliation and the sync loop *)
(* =================================================================== *)

(** [inventoryItemIdBySku] *)
Definition index_inventory (m : gmap string string) (v : VariantNode)
  : gmap string string :=
  match vn_sku v, vn_inventoryItem v with
  | Some sku, Some item =>
      if truthy_str sku && truthy_str (ii_id item)
      then <[sku := ii_id item]> m else m
  | _, _ => m
  end.

Definition inventoryItemIdBySku (product : Product) : gmap string string :=
  (* product.variants?.nodes || [] *)
  foldl index_inventory ∅ (existing_nodes (Some product)).

(** The [for (const row of productRowsForHandle)] loop that fills
    [quantities]. *)
Fixpoint quantity_lines (handle : string) (bySku : gmap string string)
    (rows : list ProductRow) : M (list QuantityLine) :=
  match rows with
  | [] => ret []
  | row :: rows' =>
      let sku := trim (str_or_empty (VariantSKU row)) in
      let qtyRaw := VariantInventoryQuantity row in
      if negb (truthy_str sku) then quantity_lines handle bySku rows'
      else if negb (cell_present qtyRaw) then quantity_lines handle bySku rows'
      else
        let qty := cell_to_number qtyRaw in
        if js_isNaN qty then quantity_lines handle bySku rows'
        else
          (* if (!invItemId) { warn(...); continue; } *)
          match bySku !! sku with
          | Some (String _ _ as invItemId) =>
              rest <- quantity_lines handle bySku rows' ;;
              ret ({| inventoryItemId := invItemId;
                      locationId := defaultLocationId;
                      quantity := qty |} :: rest)
          | _ =>
              warn (MsgNoInventoryItem sku handle) ;;;
              quantity_lines handle bySku rows'
          end
  end.

Definition syncInventoryForProduct (handle : string)
    (productRowsForHandle : list ProductRow) : M unit :=
  if negb (truthy_str defaultLocationId) then warn (MsgNoLocation handle)
  else
    product <- fetchProductByHandle handle ;;
    match product with
    | None => warn (MsgNotFoundAfterUpsert handle)
    | Some product =>
        quantities <- quantity_lines handle (inventoryItemIdBySku product)
                                     productRowsForHandle ;;
        match quantities with
        | [] => info (MsgNoInventoryRows handle)
        | _ :: _ =>
            info (MsgSettingInventory handle (length quantities)) ;;;
            setInventoryQuantities
              {| isq_name := "available";
                 isq_reason := "correction";
                 isq_ignoreCompareQuantity := true;
                 isq_quantities := quantities |} ;;;
            ret tt
        end
    end.

(** The [try] block of one iteration. *)
Definition upsert_and_sync (handle : string) (productRowsForHandle : list ProductRow)
    (productInput : ProductSetInput) : M unit :=
  data <- callShopifyGraphQL PRODUCT_SET_MUTATION (VarsProductSet handle productInput) ;;
  match rd_data data ≫= productSet with
  | None => error (MsgNoPayload handle)
  | Some payload =>
      match ps_userErrors payload with
      | Some (e :: es) => error (MsgProductSetUserErrors handle (e :: es))
      | _ =>
          match ps_product payload with
          | Some product =>
              info (MsgUpserted (p_id product) (p_handle product) (p_title product)) ;;;
              syncInventoryForProduct handle productRowsForHandle
          | None => warn (MsgNoProduct handle)
          end
      end
  end.

(** The body of the [for ... of productsByHandle.entries()] loop. *)
Definition sync_one (g : Grouped) (dryRun : bool)
    (handle : string) (productRowsForHandle : list ProductRow) : M unit :=
  info (MsgSyncing handle) ;;;
  let imagesForHandle := default [] (imagesByHandle g !! handle) in
  let metafieldsForHandle := default [] (metafieldsByHandle g !! handle) in
  existingProduct <- fetchProductByHandle handle ;;
  match buildProductSetInput handle productRowsForHandle existingProduct
                             imagesForHandle metafieldsForHandle with
  | None => throw ExTypeError
  | Some productInput =>
      if dryRun then
        info (MsgDryRunWouldUpsert handle) ;;;
        info (MsgDryRunCounts (length (psi_variants productInput))
                              (length (default [] (psi_files productInput)))
                              (length (default [] (psi_metafields productInput))))
      else
        try_catch (upsert_and_sync handle productRowsForHandle productInput)
                  (fun e => error (MsgFailedUpsert handle))
  end.

Fixpoint sync_entries (g : Grouped) (dryRun : bool)
    (entries : list (string * list ProductRow)) : M unit :=
  match entries with
  | [] => ret tt
  | (handle, productRowsForHandle) :: rest =>
      sync_one g dryRun handle productRowsForHandle ;;;
      sync_entries g dryRun rest
  end.

Definition syncAllProductsFromExcel (g : Grouped) (dryRun : bool) : M unit :=
  sync_entries g dryRun (productsByHandle g) ;;;
  info MsgAllProcessed.

(* ===================================================================== *)
(** *** excelParser.js: grouping the rows of the [Products] sheet *)
(* ===================================================================== *)

(** [if (!m.has(handle)) m.set(handle, []); m.get(handle).push(row)] on a
    [Map] kept in insertion order. *)
Fixpoint push_row (handle : string) (row : ProductRow)
    (groups : list (string * list ProductRow)) : list (string * list ProductRow) :=
  match groups with
  | [] => [(handle, [row])]
  | (h, rs) :: rest =>
      if String.eqb h handle then (h, rs ++ [row]) :: rest
      else (h, rs) :: push_row handle row rest
  end.

(** The [for (const row of productRows)] loop of [groupProductsByHandle],
    entered with the groups made so far. *)
Fixpoint group_rows (productRows : list ProductRow)
    (groups : list (string * list ProductRow)) : M (list (string * list ProductRow)) :=
  match productRows with
  | [] => ret groups
  | row :: rest =>
      let handle := trim (str_or_empty (ProductHandle row)) in
      if negb (truthy_str handle) then
        warn (MsgSkippingRow (ProductHandle row)) ;;;
        group_rows rest groups
      else group_rows rest (push_row handle row groups)
  end.

Definition groupProductsByHandle (productRows : list ProductRow)
  : M (list (string * list ProductRow)) :=
  group_rows productRows [].


(* ===================================================================== *)
(** ** Reading traces *)
(* ===================================================================== *)

(** A run with some events put in front of its own. *)
Definition prepend {A} (evs : list Event) (r : Run A) : Run A :=
  mkRun (result r) (after r) (evs ++ events r).

(** The requests posted, in order. *)
Definition posts (evs : list Event) : list Request :=
  omap (fun e => match e with EvPost r => Some r | _ => None end) evs.

(** The durations slept, in order. *)
Definition sleeps (evs : list Event) : list JsNum :=
  omap (fun e => match e with EvSleep ms => Some ms | _ => None end) evs.

(** The requests of the three gateway operations. *)
Definition lookup_request (handle : string) : Request :=
  {| query := PRODUCT_BY_HANDLE_QUERY; variables := VarsHandle handle |}.

Definition upsert_request (handle : string) (input : ProductSetInput) : Request :=
  {| query := PRODUCT_SET_MUTATION; variables := VarsProductSet handle input |}.

Definition inventory_request (input : InventorySetQuantitiesInput) : Request :=
  {| query := INVENTORY_SET_QUANTITIES_MUTATION; variables := VarsInventory input |}.

(** What the parser hands to the orchestrator: distinct non-empty handles,
    each with at least one row. *)
Definition well_grouped (groups : list (string * list ProductRow)) : Prop :=
  NoDup (groups.*1) /\ Forall (fun g => g.1 <> "" /\ g.2 <> []) groups.

(** The handles whose iteration was started, in order. *)
Definition keys_started (evs : list Event) : list string :=
  omap (fun e => match e with
                 | EvLog INFO (MsgSyncing h) => Some h
                 | _ => None
                 end) evs.

(** The handles whose dry-run skip was logged, in order. *)
Definition skips_logged (evs : list Event) : list string :=
  omap (fun e => match e with
                 | EvLog INFO (MsgDryRunWouldUpsert h) => Some h
                 | _ => None
                 end) evs.

(** The log line of [fetchProductByHandle]. *)
Definition lookup_log (handle : string) (product : option Product) : Event :=
  match product with
  | Some p => EvLog INFO (MsgFoundExisting handle (p_id p))
  | None => EvLog INFO (MsgNoExisting handle)
  end.

(** The SKU the code reads from a row. *)
Definition row_sku (row : ProductRow) : string :=
  trim (str_or_empty (VariantSKU row)).

(** The attempt numbers of the 429 warnings, in order. *)
Definition attempts_logged (evs : list Event) : list nat :=
  omap (fun e => match e with EvLog WARN (Msg429 n) => Some n | _ => None end) evs.

(** [err.response?.status === 429] *)
Definition is_429 (err : AxiosError) : bool :=
  match ae_response err with
  | Some resp => (er_status resp =? 429)%Z
  | None => false
  end.

(** The remote answers the next requests [req] with the 429 rejections
    [errs], one after the other, which takes it from [w] to [w']. *)
Inductive rejects_429 (req : Request) : World -> list AxiosError -> World -> Prop :=
| rejects_nil w : rejects_429 req w [] w
| rejects_cons w err w1 errs w2 :
    post req w = (Rejected err, w1) ->
    is_429 err = true ->
    rejects_429 req w1 errs w2 ->
    rejects_429 req w (err :: errs) w2.

(** [err.response.headers?.["retry-after"]] *)
Definition retry_after_of (err : AxiosError) : option string :=
  ae_response err ≫= er_retry_after.

(** The events of the retries that answer the rejections [errs], when the
    loop is entered with [attempt] and [backoffMs]. *)
Fixpoint retry_events (req : Request) (attempt : nat) (backoffMs : Z)
    (errs : list AxiosError) : list Event :=
  match errs with
  | [] => []
  | err :: errs' =>
      let d := retryAfterMs_of backoffMs (retry_after_of err) in
      EvPost req :: EvLog WARN (Msg429 (attempt + 1)) ::
      EvLog WARN (MsgWaiting d) :: EvSleep d ::
      retry_events req (attempt + 1) (backoffMs * 2) errs'
  end.


(** The two numbers pacing needs, when the credit envelope of the body
    carries both. *)
Definition envelope_numbers (data : ResponseData) : option (Q * Q) :=
  match extractThrottleInfo data with
  | Some t =>
      match currentlyAvailable t, restoreRate t with
      | JNumber a, JNumber r => Some (a, r)
      | _, _ => None
      end
  | None => None
  end.


(** The events that follow the post of a request answered with the body
    [data]. *)
Definition response_events (data : ResponseData) : list Event :=
  if has_errors data then [EvLog ERROR (MsgGraphQLErrors (default [] (rd_errors data)))]
  else
    match extractThrottleInfo data with
    | None => []
    | Some t =>
        EvLog INFO (MsgCost t) ::
        match envelope_numbers data with
        | Some (a, r) =>
            if Qltb a LOW_CREDITS_THRESHOLD && Qltb 0 r
            then [EvLog WARN (MsgLowCredits a (throttleWaitMs a r));
                  EvSleep (Fin (inject_Z (throttleWaitMs a r)))]
            else []
        | None => []
        end
    end.

(** The events that follow the post of a request rejected with something
    else than a 429. *)
Definition failure_events (attempt : nat) (err : AxiosError) : list Event :=
  EvLog ERROR (MsgHttpError attempt (ae_message err)) ::
  match ae_response err with
  | Some {| er_body := Some body |} => [EvLog ERROR (MsgResponseBody body)]
  | _ => []
  end.

(** What an inventory request of the reconciliation looks like. *)
Definition inventory_write_ok (rows : list ProductRow) (r : Request) : Prop :=
  exists input,
    r = inventory_request input
    /\ isq_name input = "available"
    /\ isq_reason input = "correction"
    /\ isq_ignoreCompareQuantity input = true
    /\ isq_quantities input <> []
    /\ (length (isq_quantities input) <= length rows)%nat
    /\ Forall (fun l => locationId l = defaultLocationId
                        /\ inventoryItemId l <> ""
                        /\ js_isNaN (quantity l) = false)
              (isq_quantities input).

(* ===================================================================== *)
(** *** The synchronous start-up code: its monad *)
(* ===================================================================== *)

(** The start-up code throws [StartupError]s, writes log lines, and, in
    [main], runs the sync against the endpoint. *)
Record CliRun (A : Type) : Type := mkCli {
  c_result : StartupError + A;
  c_after : World;
  c_log : list StartupLog
}.
Arguments mkCli {A}.
Arguments c_result {A}.
Arguments c_after {A}.
Arguments c_log {A}.

Definition C (A : Type) : Type := World -> CliRun A.

Definition cret {A} (a : A) : C A := fun w => mkCli (inr a) w [].

Definition cthrow {A} (e : StartupError) : C A := fun w => mkCli (inl e) w [].

Definition cbind {A B} (m : C A) (k : A -> C B) : C B := fun w =>
  let r := m w in
  match c_result r with
  | inr a => let r' := k a (c_after r) in
             mkCli (c_result r') (c_after r') (c_log r ++ c_log r')
  | inl e => mkCli (inl e) (c_after r) (c_log r)
  end.

Definition clog (lvl : Level) (m : StartupMsg) : C unit :=
  fun w => mkCli (inr tt) w [SLog lvl m].

(** A call of a function of the sync: its events go to the log, what it
    throws is thrown on. *)
Definition lift {A} (m : M A) : C A := fun w =>
  let r := m w in
  mkCli (match result r with inl a => inr a | inr e => inl (ErrSync e) end)
        (after r) (map SEvent (events r)).

Notation "x <~ m ;; k" := (cbind m (fun x => k))
  (at level 100, m at next level, right associativity).
Notation "m ~;; k" := (cbind m (fun _ => k))
  (at level 100, right associativity).

(* ===================================================================== *)
(** *** excelParser.js: reading, validating and grouping the sheets *)
(* ===================================================================== *)

Definition readSheetAsJson (workbook : Workbook) (sheetName : string)
  : C (list (gmap string Cell)) :=
  match Sheets workbook !! sheetName with
  | None => clog WARN (SMsgSheetNotFound sheetName) ~;; cret []
  | Some data => cret data
  end.

Definition validateColumns (rows : list (gmap string Cell))
    (requiredColumns : list string) (sheetName : string) : C unit :=
  match rows with
  | [] => clog WARN (SMsgNoData sheetName)
  | firstRow :: _ =>
      (* requiredColumns.filter((col) => !(col in firstRow)) *)
      let missing := filter (fun col => firstRow !! col = None) requiredColumns in
      match missing with
      | _ :: _ => cthrow (ErrMissingColumns sheetName missing)
      | [] => cret tt
      end
  end.

(** [if (!m.has(handle)) m.set(handle, []); m.get(handle).push(row)] on a
    [Map] that is only read by key afterwards. *)
Definition push_to {V} (handle : string) (v : V) (m : gmap string (list V))
  : gmap string (list V) :=
  <[handle := default [] (m !! handle) ++ [v]]> m.

(** The loop of [groupImageByHandle], entered with the map made so far. *)
Fixpoint group_images (imageRows : list (gmap string Cell))
    (imagesByHandle : gmap string (list ImageRow)) : C (gmap string (list ImageRow)) :=
  match imageRows with
  | [] => cret imagesByHandle
  | row :: rest =>
      let handle := trim (str_or_empty (read_field row "ProductHandle")) in
      let src := trim (str_or_empty (read_field row "ImageSrc")) in
      if negb (truthy_str handle) || negb (truthy_str src) then
        clog WARN (SMsgSkippingImageRow (read_field row "ProductHandle")
                                        (read_field row "ImageSrc")) ~;;
        group_images rest imagesByHandle
      else group_images rest (push_to handle (image_row_of row) imagesByHandle)
  end.

Definition groupImageByHandle (imageRows : list (gmap string Cell))
  : C (gmap string (list ImageRow)) :=
  group_images imageRows ∅.

(** The loop of [groupMetafieldByHandle]. *)
Fixpoint group_metafields (metafieldRows : list (gmap string Cell))
    (metafieldsByHandle : gmap string (list MetafieldRow))
  : C (gmap string (list MetafieldRow)) :=
  match metafieldRows with
  | [] => cret metafieldsByHandle
  | row :: rest =>
      let handle := trim (str_or_empty (read_field row "ProductHandle")) in
      let ns := trim (str_or_empty (read_field row "Namespace")) in
      let key := trim (str_or_empty (read_field row "Key")) in
      let type := trim (str_or_empty (read_field row "Type")) in
      if negb (truthy_str handle) || negb (truthy_str ns)
         || negb (truthy_str key) || negb (truthy_str type) then
        clog WARN (SMsgSkippingMetafieldRow
                     (read_field row "ProductHandle") (read_field row "Namespace")
                     (read_field row "Key") (read_field row "Type")) ~;;
        group_metafields rest metafieldsByHandle
      else group_metafields rest
             (push_to handle (metafield_row_of row) metafieldsByHandle)
  end.

Definition groupMetafieldByHandle (metafieldRows : list (gmap string Cell))
  : C (gmap string (list MetafieldRow)) :=
  group_metafields metafieldRows ∅.

(** [readFile] is [xlsx.readFile], [None] when it throws. *)
Definition parseExcelFile (readFile : string -> option Workbook) (filePath : string)
  : C Parsed :=
  clog INFO (SMsgReadingFile filePath) ~;;
  match readFile filePath with
  | None => cthrow (ErrReadFile filePath)
  | Some workbook =>
      productRows <~ readSheetAsJson workbook "Products" ;;
      match productRows with
      | [] => cthrow ErrNoProductData
      | _ :: _ =>
          validateColumns productRows REQUIRED_PRODUCT_COLUMNS "Products" ~;;
          productsByHandle <~
            lift (groupProductsByHandle (map product_row_of productRows)) ;;
          clog INFO (SMsgUniqueHandles (length productsByHandle)) ~;;
          imageRows <~ readSheetAsJson workbook "Images" ;;
          match imageRows with
          | _ :: _ => validateColumns imageRows REQUIRED_IMAGE_COLUMNS "Images"
          | [] => cret tt
          end ~;;
          imagesByHandle <~ groupImageByHandle imageRows ;;
          (if (0 <? size imagesByHandle)%nat
           then clog INFO (SMsgHandlesWithImages (size imagesByHandle))
           else cret tt) ~;;
          metafieldRows <~ readSheetAsJson workbook "Metafields" ;;
          match metafieldRows with
          | _ :: _ => validateColumns metafieldRows REQUIRED_METAFIELD_COLUMNS "Metafields"
          | [] => cret tt
          end ~;;
          metafieldsByHandle <~ groupMetafieldByHandle metafieldRows ;;
          (if (0 <? size metafieldsByHandle)%nat
           then clog INFO (SMsgHandlesWithMetafields (size metafieldsByHandle))
           else cret tt) ~;;
          clog INFO SMsgParsingCompleted ~;;
          clog INFO (SMsgTotalVariantRows (length productRows)) ~;;
          cret {| pf_grouped := {| productsByHandle := productsByHandle;
                                   imagesByHandle := imagesByHandle;
                                   metafieldsByHandle := metafieldsByHandle |};
                  pf_productRows := productRows;
                  pf_imageRows := imageRows;
                  pf_metafieldRows := metafieldRows |}
      end
  end.

(* ===================================================================== *)
(** *** index.js: [main] *)
(* ===================================================================== *)

(** The [try] block of [main], for a command line that [yargs] has parsed
    into [file] and [dryRun]. *)
Definition main_try (env : gmap string string)
    (readFile : string -> option Workbook) (file : string) (dryRun : bool)
  : C unit :=
  config <~ (fun w => mkCli (getConfig env) w []) ;;
  clog INFO (SMsgUsingStore (cfg_storeDomain config) (cfg_apiVersion config)) ~;;
  grouped <~ parseExcelFile readFile file ;;
  clog INFO SMsgParseSummary ~;;
  clog INFO (SMsgSummaryProducts (length (productsByHandle (pf_grouped grouped)))) ~;;
  clog INFO (SMsgSummaryImages (size (imagesByHandle (pf_grouped grouped)))) ~;;
  clog INFO (SMsgSummaryMetafields (size (metafieldsByHandle (pf_grouped grouped)))) ~;;
  clog INFO (SMsgSummaryDryRun dryRun) ~;;
  lift (syncAllProductsFromExcel (pf_grouped grouped) dryRun).

(** [main]: whatever the [try] block throws is logged and ends the process
    with status 1. *)
Definition main (env : gmap string string)
    (readFile : string -> option Workbook) (file : string) (dryRun : bool)
  : C ProcessEnd := fun w =>
  let r := main_try env readFile file dryRun w in
  match c_result r with
  | inr _ => mkCli (inr Returned) (c_after r) (c_log r)
  | inl err => mkCli (inr (Exited 1)) (c_after r)
                     (c_log r ++ [SLog ERROR (SMsgFatal err)])
  end.

(** The events of the sync in a start-up log, and the requests among
    them. *)
Definition cli_events (l : list StartupLog) : list Event :=
  omap (fun x => match x with SEvent e => Some e | SLog _ _ => None end) l.

Definition cli_posts (l : list StartupLog) : list Request := posts (cli_events l).

(** The handle under which the grouping keeps a row, if it keeps it: the
    trimmed [ProductHandle], when it is not blank and, for an image row,
    the image source is not blank either, for a metafield row, neither
    namespace, key nor type is. *)
Definition product_key (row : ProductRow) : option string :=
  let handle := trim (str_or_empty (ProductHandle row)) in
  if truthy_str handle then Some handle else None.

Definition image_key (row : gmap string Cell) : option string :=
  let handle := trim (str_or_empty (read_field row "ProductHandle")) in
  let src := trim (str_or_empty (read_field row "ImageSrc")) in
  if truthy_str handle && truthy_str src then Some handle else None.

Definition metafield_key (row : gmap string Cell) : option string :=
  let handle := trim (str_or_empty (read_field row "ProductHandle")) in
  let ns := trim (str_or_empty (read_field row "Namespace")) in
  let key := trim (str_or_empty (read_field row "Key")) in
  let type := trim (str_or_empty (read_field row "Type")) in
  if truthy_str handle && truthy_str ns && truthy_str key && truthy_str type
  then Some handle else None.

(** The rows kept under one handle, in sheet order. *)
Definition rows_of (handle : string) (productRows : list ProductRow)
  : list ProductRow :=
  filter (fun row => product_key row = Some handle) productRows.

Definition images_of (handle : string) (imageRows : list (gmap string Cell))
  : list ImageRow :=
  image_row_of <$> filter (fun row => image_key row = Some handle) imageRows.

Definition metafields_of (handle : string) (metafieldRows : list (gmap string Cell))
  : list MetafieldRow :=
  metafield_row_of <$> filter (fun row => metafield_key row = Some handle) metafieldRows.

(** A lookup in a map of groups: the group when it has a row. *)
Definition group_lookup {V} (l : list V) : option (list V) :=
  match l with [] => None | _ :: _ => Some l end.

(** A start-up run with some log lines put in front of its own. *)
Definition cprepend {A} (l : list StartupLog) (r : CliRun A) : CliRun A :=
  mkCli (c_result r) (c_after r) (l ++ c_log r).

(** A start-up run that leaves the endpoint as it was and has made the
    sync post nothing. *)
Definition quiet {A} (r : CliRun A) (w : World) : Prop :=
  c_after r = w /\ cli_posts (c_log r) = [].

(** The three sheets and the columns each must have. *)
Definition REQUIRED_COLUMNS : list (string * list string) :=
  [("Products", REQUIRED_PRODUCT_COLUMNS);
   ("Images", REQUIRED_IMAGE_COLUMNS);
   ("Metafields", REQUIRED_METAFIELD_COLUMNS)].

(** The rows of a sheet, none when the workbook has no such sheet. *)
Definition sheet_rows (workbook : Workbook) (sheetName : string)
  : list (gmap string Cell) :=
  default [] (Sheets workbook !! sheetName).

(** The required columns that the first row of a sheet lacks. *)
Definition missing_columns (rows : list (gmap string Cell))
    (requiredColumns : list string) : list string :=
  match rows with
  | [] => []
  | firstRow :: _ => filter (fun col => firstRow !! col = None) requiredColumns
  end.

(* ===================================================================== *)
(** ** The monad: how runs compose *)
(* ===================================================================== *)

Lemma prepend_nil {A} (r : Run A) : prepend [] r = r.
Proof. by destruct r. Qed.

Lemma prepend_prepend {A} (e1 e2 : list Event) (r : Run A) :
  prepend e1 (prepend e2 r) = prepend (e1 ++ e2) r.
Proof. unfold prepend; simpl. by rewrite app_assoc. Qed.

Lemma bind_emit {B} (e : Event) (k : M B) (w : World) :
  (emit e ;;; k) w = prepend [e] (k w).
Proof. reflexivity. Qed.

Lemma bind_post {B} (req : Request) (k : Outcome -> M B) (w w' : World) (o : Outcome) :
  post req w = (o, w') ->
  (o <- client_post req ;; k o) w = prepend [EvPost req] (k o w').
Proof. intros H. unfold bind, client_post. by rewrite H. Qed.

Lemma bind_ok {A B} (m : M A) (k : A -> M B) (w : World) (a : A) :
  result (m w) = inl a ->
  bind m k w = prepend (events (m w)) (k a (after (m w))).
Proof. intros H. unfold bind. by rewrite H. Qed.

Lemma bind_throw {A B} (m : M A) (k : A -> M B) (w : World) (e : Exn) :
  result (m w) = inr e ->
  bind m k w = mkRun (inr e) (after (m w)) (events (m w)).
Proof. intros H. unfold bind. by rewrite H. Qed.

Lemma posts_app (e1 e2 : list Event) : posts (e1 ++ e2) = posts e1 ++ posts e2.
Proof. apply omap_app. Qed.

Lemma sleeps_app (e1 e2 : list Event) : sleeps (e1 ++ e2) = sleeps e1 ++ sleeps e2.
Proof. apply omap_app. Qed.

(* ===================================================================== *)
(** ** The executor, one iteration at a time *)
(* ===================================================================== *)

Lemma Qltb_true (x y : Q) : Qltb x y = true <-> (x < y)%Q.
Proof.
  unfold Qltb. rewrite negb_true_iff. split.
  - intros H. apply Qnot_le_lt. intros Hle.
    apply Qle_bool_iff in Hle. congruence.
  - intros H. destruct (Qle_bool y x) eqn:E; [|done].
    apply Qle_bool_iff in E. exfalso. by apply (Qlt_not_le x y).
Qed.

Lemma Qltb_false (x y : Q) : Qltb x y = false <-> (y <= x)%Q.
Proof.
  unfold Qltb. rewrite negb_false_iff. apply Qle_bool_iff.
Qed.

Lemma deficit_low (a : Q) :
  (a < LOW_CREDITS_THRESHOLD)%Q ->
  Qmax0 (LOW_CREDITS_THRESHOLD * 2 - a) = (LOW_CREDITS_THRESHOLD * 2 - a)%Q
  /\ Qltb 0 (Qmax0 (LOW_CREDITS_THRESHOLD * 2 - a)) = true.
Proof.
  intros Ha. unfold LOW_CREDITS_THRESHOLD in *.
  assert (H : (0 < 50 * 2 - a)%Q) by lra.
  unfold Qmax0. apply Qltb_true in H. by rewrite !H.
Qed.

Lemma pacing_run (data : ResponseData) (t : ThrottleInfo) (w : World) :
  has_errors data = false ->
  extractThrottleInfo data = Some t ->
  applyPreemptiveThrottleWait (Some t) w
  = mkRun (inl tt) w (tail (response_events data)).
Proof.
  intros He Ht. unfold response_events, envelope_numbers. rewrite He, Ht. simpl.
  destruct (currentlyAvailable t) as [| | |a| |]; try reflexivity.
  destruct (restoreRate t) as [| | |r| |]; try reflexivity.
  destruct (Qltb a LOW_CREDITS_THRESHOLD) eqn:Ea; [|reflexivity].
  apply Qltb_true in Ea. destruct (deficit_low a Ea) as [_ ->]. simpl.
  by destruct (Qltb 0 r).
Qed.

Lemma retry_loop_resolved (fuel : nat) (req : Request) (attempt : nat) (b : Z)
    (w w1 : World) (data : ResponseData) :
  post req w = (Resolved data, w1) ->
  (attempt <= MAX_RETRIES)%nat ->
  retry_loop (S fuel) req attempt b w
  = mkRun (inl data) w1 (EvPost req :: response_events data).
Proof.
  intros Hp Ha. simpl. apply Nat.leb_le in Ha. rewrite Ha.
  rewrite (bind_post _ _ _ _ _ Hp). unfold response_events.
  destruct (has_errors data) eqn:He; [reflexivity|].
  destruct (extractThrottleInfo data) as [t|] eqn:Ht; [|reflexivity].
  assert (H : (info (MsgCost t) ;;; applyPreemptiveThrottleWait (Some t)) w1
              = mkRun (inl tt) w1 (EvLog INFO (MsgCost t) :: tail (response_events data))).
  { unfold info, log. by rewrite bind_emit, (pacing_run data t). }
  erewrite bind_ok by (rewrite H; reflexivity). rewrite H.
  unfold response_events, prepend. rewrite He, Ht. cbn. by rewrite app_nil_r.
Qed.

Lemma retry_loop_failure (fuel : nat) (req : Request) (attempt : nat) (b : Z)
    (w w1 : World) (err : AxiosError) :
  post req w = (Rejected err, w1) ->
  is_429 err = false ->
  (attempt <= MAX_RETRIES)%nat ->
  retry_loop (S fuel) req attempt b w
  = mkRun (inr (ExAxios err)) w1
          (EvPost req :: failure_events (attempt + 1) err).
Proof.
  intros Hp Hs Ha. simpl. apply Nat.leb_le in Ha. rewrite Ha.
  rewrite (bind_post _ _ _ _ _ Hp). unfold is_429 in Hs. unfold failure_events.
  destruct (ae_response err) as [resp|] eqn:Hr.
  - rewrite Hs. unfold rethrow_http_error. rewrite Hr.
    by destruct resp as [st ra [body|]].
  - unfold rethrow_http_error. by rewrite Hr.
Qed.

Lemma retry_loop_429 (fuel : nat) (req : Request) (attempt : nat) (b : Z)
    (w w1 : World) (err : AxiosError) :
  post req w = (Rejected err, w1) ->
  is_429 err = true ->
  (attempt < MAX_RETRIES)%nat ->
  retry_loop (S fuel) req attempt b w
  = prepend (retry_events req attempt b [err])
            (retry_loop fuel req (attempt + 1) (b * 2) w1).
Proof.
  intros Hp Hs Ha. cbn [retry_loop].
  assert (H1 : (attempt <=? MAX_RETRIES)%nat = true) by (apply Nat.leb_le; lia).
  assert (H2 : (MAX_RETRIES <? attempt + 1)%nat = false) by (apply Nat.ltb_ge; lia).
  rewrite H1, (bind_post _ _ _ _ _ Hp). unfold is_429 in Hs.
  unfold retry_events, retry_after_of.
  destruct (ae_response err) as [resp|]; [|done].
  rewrite Hs, H2. reflexivity.
Qed.

Lemma retry_loop_last (fuel : nat) (req : Request) (b : Z)
    (w w1 : World) (err : AxiosError) :
  post req w = (Rejected err, w1) ->
  is_429 err = true ->
  retry_loop (S fuel) req MAX_RETRIES b w
  = mkRun (inr (ExAxios err)) w1
          [EvPost req; EvLog WARN (Msg429 (MAX_RETRIES + 1)); EvLog ERROR MsgMaxRetries].
Proof.
  intros Hp Hs. cbn [retry_loop].
  change (MAX_RETRIES <=? MAX_RETRIES)%nat with true. cbv iota.
  rewrite (bind_post _ _ _ _ _ Hp). unfold is_429 in Hs.
  destruct (ae_response err) as [resp|]; [|done].
  rewrite Hs. reflexivity.
Qed.


(* ===================================================================== *)
(** ** The executor, a whole call *)
(* ===================================================================== *)

Lemma rejects_429_app (req : Request) (l1 l2 : list AxiosError) (w w2 : World) :
  rejects_429 req w (l1 ++ l2) w2 <->
  exists w1, rejects_429 req w l1 w1 /\ rejects_429 req w1 l2 w2.
Proof.
  revert w. induction l1 as [|e l1 IH]; intros w; simpl.
  - split.
    + intros H. exists w. split; [constructor | done].
    + intros (w1 & H1 & H2). by inversion H1; subst.
  - split.
    + intros H. inversion H as [|? ? w' ? ? Hp Hs Hr]; subst.
      apply IH in Hr as (w1 & H1 & H2).
      exists w1. split; [by econstructor | done].
    + intros (w1 & H1 & H2). inversion H1 as [|? ? w' ? ? Hp Hs Hr]; subst.
      econstructor; [done | done |]. apply IH. by exists w1.
Qed.

(** After [length errs] rejections the loop is back at its head with the
    attempt count raised by that many and the backoff doubled that many
    times. *)
Lemma retry_loop_rejects (req : Request) (errs : list AxiosError) :
  forall (fuel attempt : nat) (b : Z) (w w1 : World),
    rejects_429 req w errs w1 ->
    (attempt + length errs <= MAX_RETRIES)%nat ->
    retry_loop (length errs + fuel) req attempt b w
    = prepend (retry_events req attempt b errs)
              (retry_loop fuel req (attempt + length errs)
                          (b * 2 ^ Z.of_nat (length errs)) w1).
Proof.
  induction errs as [|err errs IH]; intros fuel attempt b w w1 Hr Hk.
  - inversion Hr; subst. cbn [length retry_events].
    rewrite prepend_nil, Nat.add_0_r, Z.pow_0_r, Z.mul_1_r. reflexivity.
  - inversion Hr as [|? ? w' ? ? Hp Hs Hr']; subst. cbn [length] in *.
    change (S (length errs) + fuel)%nat with (S (length errs + fuel)).
    rewrite (retry_loop_429 _ _ _ _ _ _ _ Hp Hs) by lia.
    rewrite (IH _ _ _ _ _ Hr') by lia.
    rewrite prepend_prepend. cbn [retry_events app].
    replace (attempt + 1 + length errs)%nat with (attempt + S (length errs))%nat by lia.
    replace (b * 2 * 2 ^ Z.of_nat (length errs))%Z
      with (b * 2 ^ Z.of_nat (S (length errs)))%Z
      by (rewrite Nat2Z.inj_succ, Z.pow_succ_r by lia; ring).
    reflexivity.
Qed.

Lemma call_after_rejects (q : Query) (v : Variables) (errs : list AxiosError)
    (w w1 : World) :
  let req := {| query := q; variables := v |} in
  rejects_429 req w errs w1 ->
  (length errs <= MAX_RETRIES)%nat ->
  callShopifyGraphQL q v w
  = prepend (retry_events req 0 INITIAL_BACKOFF_MS errs)
            (retry_loop (S (S MAX_RETRIES) - length errs) req (length errs)
                        (INITIAL_BACKOFF_MS * 2 ^ Z.of_nat (length errs)) w1).
Proof.
  intros req Hr Hk. unfold callShopifyGraphQL. fold req.
  replace (S (S MAX_RETRIES)) with (length errs + (S (S MAX_RETRIES) - length errs))%nat at 1
    by lia.
  by rewrite (retry_loop_rejects req errs _ 0 _ w w1).
Qed.

Lemma posts_response_events (data : ResponseData) : posts (response_events data) = [].
Proof.
  unfold response_events. destruct (has_errors data); [done|].
  destruct (extractThrottleInfo data); [|done]. cbn.
  destruct (envelope_numbers data) as [[a r]|]; [|done].
  by destruct (Qltb a LOW_CREDITS_THRESHOLD && Qltb 0 r).
Qed.

Lemma posts_failure_events (n : nat) (err : AxiosError) : posts (failure_events n err) = [].
Proof.
  unfold failure_events. cbn. by destruct (ae_response err) as [[? ? [?|]]|].
Qed.

Lemma sleeps_failure_events (n : nat) (err : AxiosError) : sleeps (failure_events n err) = [].
Proof.
  unfold failure_events. cbn. by destruct (ae_response err) as [[? ? [?|]]|].
Qed.

Lemma posts_retry_events (req : Request) (errs : list AxiosError) :
  forall attempt b, posts (retry_events req attempt b errs) = replicate (length errs) req.
Proof.
  induction errs as [|e errs IH]; intros attempt b; [done|].
  cbn. by rewrite <- (IH (attempt + 1)%nat (b * 2)%Z).
Qed.

(** Whatever the remote does, the loop posts the same request again and
    again, and no more often than the attempts that are left. *)
Lemma retry_loop_posts (req : Request) :
  forall (fuel attempt : nat) (b : Z) (w : World),
  exists n, posts (events (retry_loop fuel req attempt b w)) = replicate n req
            /\ (n <= S MAX_RETRIES - attempt)%nat.
Proof.
  induction fuel as [|fuel IH]; intros attempt b w.
  - exists 0%nat. split; [done | lia].
  - destruct (le_lt_dec attempt MAX_RETRIES) as [Ha|Ha].
    + destruct (post req w) as [[data|err] w1] eqn:Hp.
      * rewrite (retry_loop_resolved _ _ _ _ _ _ _ Hp Ha). exists 1%nat.
        cbn [events]. change (posts (EvPost req :: ?l)) with (req :: posts l).
        rewrite posts_response_events. split; [done | lia].
      * destruct (is_429 err) eqn:Hs.
        -- destruct (decide (attempt = MAX_RETRIES)) as [->|Hne].
           ++ rewrite (retry_loop_last _ _ _ _ _ _ Hp Hs). exists 1%nat.
              split; [done | unfold MAX_RETRIES; lia].
           ++ rewrite (retry_loop_429 _ _ _ _ _ _ _ Hp Hs) by lia.
              destruct (IH (attempt + 1)%nat (b * 2)%Z w1) as (n & Hn & Hle).
              exists (S n). unfold prepend. cbn [events].
              rewrite posts_app, posts_retry_events, Hn. split; [done | lia].
        -- rewrite (retry_loop_failure _ _ _ _ _ _ _ Hp Hs Ha). exists 1%nat.
           cbn [events]. change (posts (EvPost req :: ?l)) with (req :: posts l).
           rewrite posts_failure_events. split; [done | lia].
    + exists 0%nat. cbn [retry_loop].
      assert (H : (attempt <=? MAX_RETRIES)%nat = false) by (apply Nat.leb_gt; lia).
      rewrite H. split; [done | lia].
Qed.




Lemma sleeps_response_events_errors (data : ResponseData) :
  has_errors data = true -> sleeps (response_events data) = [].
Proof. intros H. unfold response_events. by rewrite H. Qed.


Lemma sleeps_response_events_numbers (data : ResponseData) (a r : Q) :
  has_errors data = false ->
  envelope_numbers data = Some (a, r) ->
  sleeps (response_events data)
  = if Qltb a LOW_CREDITS_THRESHOLD && Qltb 0 r
    then [Fin (inject_Z (throttleWaitMs a r))] else [].
Proof.
  intros He Hn. unfold response_events. rewrite He.
  destruct (extractThrottleInfo data) eqn:Ht.
  - rewrite Hn. by destruct (Qltb a LOW_CREDITS_THRESHOLD && Qltb 0 r).
  - unfold envelope_numbers in Hn. by rewrite Ht in Hn.
Qed.

Lemma throttleWaitMs_formula (a r : Q) :
  (a < 50)%Q -> (0 < r)%Q ->
  throttleWaitMs a r = Qceiling ((2 * 50 - a) / r * 1000).
Proof.
  intros Ha Hr. unfold throttleWaitMs.
  destruct (deficit_low a Ha) as [-> _]. unfold LOW_CREDITS_THRESHOLD.
  apply Qceiling_comp. field. intros H0. rewrite H0 in Hr. by apply Qlt_irrefl in Hr.
Qed.

Lemma sleeps_retry_events (req : Request) (errs : list AxiosError) :
  forall (attempt : nat) (b : Z),
    sleeps (retry_events req attempt b errs)
    = imap (fun i err => retryAfterMs_of (b * 2 ^ Z.of_nat i) (retry_after_of err)) errs.
Proof.
  induction errs as [|err errs IH]; intros attempt b; [done|].
  cbn [retry_events imap]. 
  change (sleeps (EvPost req :: ?x :: ?y :: EvSleep ?d :: ?l)) with (d :: sleeps l).
  rewrite IH, Z.pow_0_r, Z.mul_1_r. f_equal.
  apply imap_ext. intros i e _. cbn.
  rewrite Nat2Z.inj_succ, Z.pow_succ_r by lia. f_equal. ring.
Qed.

Lemma attempts_retry_events (req : Request) (errs : list AxiosError) :
  forall (attempt : nat) (b : Z),
    attempts_logged (retry_events req attempt b errs) = seq (attempt + 1) (length errs).
Proof.
  induction errs as [|err errs IH]; intros attempt b; [done|].
  cbn [retry_events length seq].
  change (attempts_logged (EvPost req :: EvLog WARN (Msg429 ?n) :: ?y :: ?z :: ?l))
    with (n :: attempts_logged l).
  rewrite IH. do 2 f_equal. lia.
Qed.


(* ===================================================================== *)
(** ** Properties of the executor *)
(* ===================================================================== *)


Lemma sleeps_retry_events_length (req : Request) (errs : list AxiosError)
    (attempt : nat) (b : Z) :
  length (sleeps (retry_events req attempt b errs)) = length errs.
Proof. by rewrite sleeps_retry_events, length_imap. Qed.

(** C2: a call whose request is rejected with 429 again and again is
    retried [MAX_RETRIES] = 5 times; the 429 error of the request that
    follows the fifth retry is thrown as it is, and nothing is posted after
    it.  No call posts more than [MAX_RETRIES + 1] requests. *)
Theorem C2_retry_bound (q : Query) (v : Variables) (errs : list AxiosError)
    (err : AxiosError) (w w1 : World) :
  let req := {| query := q; variables := v |} in
  rejects_429 req w (errs ++ [err]) w1 ->
  length errs = MAX_RETRIES ->
  let run := callShopifyGraphQL q v w in
  MAX_RETRIES = 5%nat /\
  result run = inr (ExAxios err) /\ after run = w1 /\
  posts (events run) = replicate (MAX_RETRIES + 1) req /\
  length (sleeps (events run)) = MAX_RETRIES /\
  (forall w' : World,
     length (posts (events (callShopifyGraphQL q v w'))) <= MAX_RETRIES + 1)%nat.
Proof.
  intros req Hr Hk run. subst run. split; [done|].
  apply rejects_429_app in Hr as (w0 & Hr & Hlast).
  inversion Hlast as [|? ? w1' ? ? Hp Hs Hnil]; subst. inversion Hnil; subst.
  rewrite (call_after_rejects q v errs w w0 Hr) by lia. fold req.
  rewrite Hk. replace (S (S MAX_RETRIES) - MAX_RETRIES)%nat with 2%nat by (unfold MAX_RETRIES; lia).
  rewrite (retry_loop_last _ _ _ _ _ _ Hp Hs).
  unfold prepend. cbn [result after events].
  split; [done|]. split; [done|]. split; [|split].
  - rewrite posts_app, posts_retry_events, Hk. done.
  - rewrite sleeps_app, length_app, sleeps_retry_events_length, Hk. reflexivity.
  - intros w'. unfold callShopifyGraphQL.
    destruct (retry_loop_posts req (S (S MAX_RETRIES)) 0 INITIAL_BACKOFF_MS w')
      as (n & Hn & Hle).
    fold req. rewrite Hn, length_replicate. lia.
Qed.

(** C3: every call starts its loop with attempt count 0 and a backoff of
    1000 ms, whatever the calls before it did; each retry after a 429
    raises the attempt count by one and doubles the backoff, so that after
    [k] retries the loop is at attempt [k] with a backoff of [1000 * 2^k]
    ms, the warnings of the retries carry the attempt numbers [1..k] and
    the [i]-th wait (from 0) is computed from the backoff [1000 * 2^i]. *)
Theorem C3_backoff_doubles (q : Query) (v : Variables) (errs : list AxiosError)
    (w w1 : World) :
  let req := {| query := q; variables := v |} in
  rejects_429 req w errs w1 ->
  (length errs <= MAX_RETRIES)%nat ->
  let k := length errs in
  INITIAL_BACKOFF_MS = 1000%Z /\
  callShopifyGraphQL q v w
  = prepend (retry_events req 0 INITIAL_BACKOFF_MS errs)
            (retry_loop (S (S MAX_RETRIES) - k) req k
                        (INITIAL_BACKOFF_MS * 2 ^ Z.of_nat k) w1) /\
  attempts_logged (retry_events req 0 INITIAL_BACKOFF_MS errs) = seq 1 k /\
  sleeps (retry_events req 0 INITIAL_BACKOFF_MS errs)
  = imap (fun i e => retryAfterMs_of (INITIAL_BACKOFF_MS * 2 ^ Z.of_nat i)
                                     (retry_after_of e)) errs /\
  (forall (fuel attempt : nat) (b : Z) (u u1 : World) (e : AxiosError),
     post req u = (Rejected e, u1) -> is_429 e = true ->
     (attempt < MAX_RETRIES)%nat ->
     retry_loop (S fuel) req attempt b u
     = prepend (retry_events req attempt b [e])
               (retry_loop fuel req (attempt + 1) (b * 2) u1)) /\
  (forall (q' : Query) (v' : Variables) (data : ResponseData),
     result (callShopifyGraphQL q v w) = inl data ->
     (callShopifyGraphQL q v ;;; callShopifyGraphQL q' v') w
     = prepend (events (callShopifyGraphQL q v w))
               (retry_loop (S (S MAX_RETRIES)) {| query := q'; variables := v' |}
                           0 INITIAL_BACKOFF_MS (after (callShopifyGraphQL q v w)))).
Proof.
  intros req Hr Hk k. split; [done|]. split; [|split; [|split; [|split]]].
  - by apply call_after_rejects.
  - apply attempts_retry_events.
  - apply sleeps_retry_events.
  - intros. by apply retry_loop_429.
  - intros q' v' data Hres. by rewrite (bind_ok _ _ _ _ Hres).
Qed.


Lemma call_resolved (q : Query) (v : Variables) (errs : list AxiosError)
    (w w1 w2 : World) (data : ResponseData) :
  let req := {| query := q; variables := v |} in
  rejects_429 req w errs w1 ->
  (length errs <= MAX_RETRIES)%nat ->
  post req w1 = (Resolved data, w2) ->
  callShopifyGraphQL q v w
  = mkRun (inl data) w2
          (retry_events req 0 INITIAL_BACKOFF_MS errs
           ++ EvPost req :: response_events data).
Proof.
  intros req Hr Hk Hp.
  rewrite (call_after_rejects q v errs w w1 Hr Hk). fold req.
  replace (S (S MAX_RETRIES) - length errs)%nat
    with (S (S MAX_RETRIES - length errs)) by lia.
  by rewrite (retry_loop_resolved _ _ _ _ _ _ _ Hp Hk).
Qed.

Lemma call_failed (q : Query) (v : Variables) (errs : list AxiosError)
    (w w1 w2 : World) (err : AxiosError) :
  let req := {| query := q; variables := v |} in
  rejects_429 req w errs w1 ->
  (length errs <= MAX_RETRIES)%nat ->
  post req w1 = (Rejected err, w2) ->
  is_429 err = false ->
  callShopifyGraphQL q v w
  = mkRun (inr (ExAxios err)) w2
          (retry_events req 0 INITIAL_BACKOFF_MS errs
           ++ EvPost req :: failure_events (length errs + 1) err).
Proof.
  intros req Hr Hk Hp Hs.
  rewrite (call_after_rejects q v errs w w1 Hr Hk). fold req.
  replace (S (S MAX_RETRIES) - length errs)%nat
    with (S (S MAX_RETRIES - length errs)) by lia.
  by rewrite (retry_loop_failure _ _ _ _ _ _ _ Hp Hs Hk).
Qed.




(** C5: the only answer that makes the executor post again is a 429.  A
    successful transport response that carries application-level errors is
    returned as it is, and any other rejection (no response at all, or a
    status that is not 429) is thrown as it is; in both cases the request
    has been posted once more than it was rejected with 429, and nothing
    is slept after the answer. *)
Theorem C5_no_retry_on_other_outcomes (q : Query) (v : Variables)
    (errs : list AxiosError) (w w1 w2 : World) (o : Outcome) :
  let req := {| query := q; variables := v |} in
  rejects_429 req w errs w1 ->
  (length errs <= MAX_RETRIES)%nat ->
  post req w1 = (o, w2) ->
  let run := callShopifyGraphQL q v w in
  match o with
  | Resolved data =>
      has_errors data = true ->
      run = mkRun (inl data) w2
              (retry_events req 0 INITIAL_BACKOFF_MS errs
               ++ [EvPost req;
                   EvLog ERROR (MsgGraphQLErrors (default [] (rd_errors data)))])
      /\ posts (events run) = replicate (length errs + 1) req
  | Rejected err =>
      is_429 err = false ->
      run = mkRun (inr (ExAxios err)) w2
              (retry_events req 0 INITIAL_BACKOFF_MS errs
               ++ EvPost req :: failure_events (length errs + 1) err)
      /\ posts (events run) = replicate (length errs + 1) req
      /\ sleeps (events run) = sleeps (retry_events req 0 INITIAL_BACKOFF_MS errs)
  end.
Proof.
  intros req Hr Hk Hp run. subst run. destruct o as [data|err].
  - intros He. rewrite (call_resolved q v errs w w1 w2 data Hr Hk Hp). fold req.
    unfold response_events. rewrite He. split; [done|]. cbn [events].
    rewrite posts_app, posts_retry_events. cbn.
    by rewrite Nat.add_1_r, replicate_S_end.
  - intros Hs. rewrite (call_failed q v errs w w1 w2 err Hr Hk Hp Hs). fold req.
    split; [done|]. cbn [events]. split.
    + rewrite posts_app, posts_retry_events.
      change (posts (EvPost req :: ?l)) with (req :: posts l).
      rewrite posts_failure_events. by rewrite Nat.add_1_r, replicate_S_end.
    + rewrite sleeps_app. change (sleeps (EvPost req :: ?l)) with (sleeps l).
      by rewrite sleeps_failure_events, app_nil_r.
Qed.



(* ===================================================================== *)
(** ** The gateway and the orchestrator, step by step *)
(* ===================================================================== *)

Lemma events_bind_prefix {A B} (m : M A) (k : A -> M B) (w : World) :
  exists tl, events (bind m k w) = events (m w) ++ tl.
Proof.
  unfold bind. destruct (result (m w)); cbn [events]; eauto.
  exists []. by rewrite app_nil_r.
Qed.

Lemma events_try_catch_prefix {A} (m : M A) (h : Exn -> M A) (w : World) :
  exists tl, events (try_catch m h w) = events (m w) ++ tl.
Proof.
  unfold try_catch. destruct (result (m w)); cbn [events]; eauto.
  exists []. by rewrite app_nil_r.
Qed.

(** A call posts its request before anything else. *)
Lemma call_head (q : Query) (v : Variables) (w : World) :
  exists tl, events (callShopifyGraphQL q v w)
             = EvPost {| query := q; variables := v |} :: tl.
Proof.
  unfold callShopifyGraphQL. set (req := {| query := q; variables := v |}).
  destruct (post req w) as [[data|err] w1] eqn:Hp.
  - rewrite (retry_loop_resolved _ _ _ _ _ _ _ Hp) by (unfold MAX_RETRIES; lia). eauto.
  - destruct (is_429 err) eqn:Hs.
    + rewrite (retry_loop_429 _ _ _ _ _ _ _ Hp Hs) by (unfold MAX_RETRIES; lia).
      cbn. eauto.
    + rewrite (retry_loop_failure _ _ _ _ _ _ _ Hp Hs) by (unfold MAX_RETRIES; lia).
      eauto.
Qed.

(** A call posts its request between once and [MAX_RETRIES + 1] times, and
    nothing else. *)
Lemma call_posts (q : Query) (v : Variables) (w : World) :
  exists n, posts (events (callShopifyGraphQL q v w))
            = replicate n {| query := q; variables := v |}
            /\ (1 <= n <= MAX_RETRIES + 1)%nat.
Proof.
  destruct (retry_loop_posts {| query := q; variables := v |}
              (S (S MAX_RETRIES)) 0 INITIAL_BACKOFF_MS w) as (n & Hn & Hle).
  exists n. split; [done|]. split; [|lia].
  destruct (call_head q v w) as (tl & Htl). unfold callShopifyGraphQL in Htl.
  rewrite Htl in Hn. destruct n; [done | lia].
Qed.

(** A call that meets no 429 posts its request exactly once. *)
Lemma call_posts_once (q : Query) (v : Variables) (w : World) :
  match fst (post {| query := q; variables := v |} w) with
  | Rejected err => is_429 err = false
  | Resolved _ => True
  end ->
  posts (events (callShopifyGraphQL q v w)) = [ {| query := q; variables := v |} ].
Proof.
  unfold callShopifyGraphQL. set (req := {| query := q; variables := v |}).
  destruct (post req w) as [[data|err] w1] eqn:Hp; cbn [fst]; intros Hs.
  - rewrite (retry_loop_resolved _ _ _ _ _ _ _ Hp) by (unfold MAX_RETRIES; lia).
    cbn [events]. change (posts (EvPost req :: ?l)) with (req :: posts l).
    by rewrite posts_response_events.
  - rewrite (retry_loop_failure _ _ _ _ _ _ _ Hp Hs) by (unfold MAX_RETRIES; lia).
    cbn [events]. change (posts (EvPost req :: ?l)) with (req :: posts l).
    by rewrite posts_failure_events.
Qed.

Lemma fetch_ok (handle : string) (w : World) (data : ResponseData) :
  result (callShopifyGraphQL PRODUCT_BY_HANDLE_QUERY (VarsHandle handle) w) = inl data ->
  let call := callShopifyGraphQL PRODUCT_BY_HANDLE_QUERY (VarsHandle handle) w in
  let product := rd_data data ≫= productByHandle in
  fetchProductByHandle handle w
  = mkRun (inl product) (after call) (events call ++ [lookup_log handle product]).
Proof.
  intros H call product. unfold fetchProductByHandle.
  rewrite (bind_ok _ _ _ _ H). fold call product. unfold lookup_log.
  by destruct product.
Qed.

Lemma fetch_throw (handle : string) (w : World) (e : Exn) :
  result (callShopifyGraphQL PRODUCT_BY_HANDLE_QUERY (VarsHandle handle) w) = inr e ->
  let call := callShopifyGraphQL PRODUCT_BY_HANDLE_QUERY (VarsHandle handle) w in
  fetchProductByHandle handle w = mkRun (inr e) (after call) (events call).
Proof. intros H call. unfold fetchProductByHandle. by rewrite (bind_throw _ _ _ _ H). Qed.

Lemma posts_fetch (handle : string) (w : World) :
  posts (events (fetchProductByHandle handle w))
  = posts (events (callShopifyGraphQL PRODUCT_BY_HANDLE_QUERY (VarsHandle handle) w)).
Proof.
  destruct (result (callShopifyGraphQL PRODUCT_BY_HANDLE_QUERY (VarsHandle handle) w))
    as [data|e] eqn:H.
  - rewrite (fetch_ok handle w data H). cbn [events]. rewrite posts_app.
    unfold lookup_log. destruct (rd_data data ≫= productByHandle); cbn; by rewrite app_nil_r.
  - by rewrite (fetch_throw handle w e H).
Qed.


Lemma build_some (handle : string) (rows : list ProductRow) (existing : option Product)
    (imgs : list ImageRow) (mfs : list MetafieldRow) :
  rows <> [] ->
  exists input, buildProductSetInput handle rows existing imgs mfs = Some input
                /\ psi_variants input
                   = map (variantInput_of (existingVariantsBySku existing)) rows.
Proof. intros H. destruct rows as [|r rows]; [done|]. cbn. eauto. Qed.

Lemma build_none (handle : string) (rows : list ProductRow) (existing : option Product)
    (imgs : list ImageRow) (mfs : list MetafieldRow) :
  buildProductSetInput handle rows existing imgs mfs = None -> rows = [].
Proof. by destruct rows. Qed.

Lemma sync_one_lookup_throws (g : Grouped) (dryRun : bool) (handle : string)
    (rows : list ProductRow) (w : World) (e : Exn) :
  result (fetchProductByHandle handle w) = inr e ->
  sync_one g dryRun handle rows w
  = mkRun (inr e) (after (fetchProductByHandle handle w))
          (EvLog INFO (MsgSyncing handle) :: events (fetchProductByHandle handle w)).
Proof.
  intros H. unfold sync_one, info, log. rewrite bind_emit.
  by rewrite (bind_throw _ _ _ _ H).
Qed.

Lemma sync_one_dry_run (g : Grouped) (handle : string) (rows : list ProductRow)
    (w : World) (existing : option Product) (input : ProductSetInput) :
  result (fetchProductByHandle handle w) = inl existing ->
  buildProductSetInput handle rows existing
    (default [] (imagesByHandle g !! handle))
    (default [] (metafieldsByHandle g !! handle)) = Some input ->
  sync_one g true handle rows w
  = mkRun (inl tt) (after (fetchProductByHandle handle w))
          (EvLog INFO (MsgSyncing handle) ::
           events (fetchProductByHandle handle w)
           ++ [EvLog INFO (MsgDryRunWouldUpsert handle);
               EvLog INFO (MsgDryRunCounts
                             (length (psi_variants input))
                             (length (default [] (psi_files input)))
                             (length (default [] (psi_metafields input))))]).
Proof.
  intros H Hb. unfold sync_one, info, log. rewrite bind_emit.
  rewrite (bind_ok _ _ _ _ H), Hb. reflexivity.
Qed.

Lemma sync_one_dry_posts (g : Grouped) (handle : string) (rows : list ProductRow)
    (w : World) :
  posts (events (sync_one g true handle rows w))
  = posts (events (callShopifyGraphQL PRODUCT_BY_HANDLE_QUERY (VarsHandle handle) w)).
Proof.
  rewrite <- posts_fetch.
  destruct (result (fetchProductByHandle handle w)) as [existing|e] eqn:H.
  - destruct (buildProductSetInput handle rows existing
                (default [] (imagesByHandle g !! handle))
                (default [] (metafieldsByHandle g !! handle))) as [input|] eqn:Hb.
    + rewrite (sync_one_dry_run g handle rows w existing input H Hb). cbn [events].
      change (posts (EvLog ?l ?m :: ?x)) with (posts x).
      rewrite posts_app. cbn. by rewrite app_nil_r.
    + unfold sync_one, info, log. rewrite bind_emit, (bind_ok _ _ _ _ H), Hb.
      cbn. by rewrite app_nil_r.
  - by rewrite (sync_one_lookup_throws g true handle rows w e H).
Qed.

Lemma Forall_replicate_read (n : nat) (handle : string) :
  Forall (fun r => is_write r = false) (replicate n (lookup_request handle)).
Proof. apply Forall_replicate. reflexivity. Qed.

(** The posts of a dry run over [entries]: only lookups, and when the run
    completes one group of them per entry, in order. *)
Lemma sync_entries_dry_posts (g : Grouped) (entries : list (string * list ProductRow)) :
  forall w : World,
    let run := sync_entries g true entries w in
    Forall (fun r => is_write r = false) (posts (events run)) /\
    (result run = inl tt ->
     exists ns : list nat,
       length ns = length entries /\
       Forall (fun n => 1 <= n <= MAX_RETRIES + 1)%nat ns /\
       posts (events run)
       = concat (zip_with (fun e n => replicate n (lookup_request e.1)) entries ns)) /\
    ((forall (req : Request) (u : World),
        match fst (post req u) with
        | Rejected err => is_429 err = false
        | Resolved _ => True
        end) ->
     result run = inl tt ->
     posts (events run) = map (fun e => lookup_request e.1) entries).
Proof.
  induction entries as [|[handle rows] rest IH]; intros w run; subst run.
  - cbn. split; [constructor|]. split; [|done]. intros _. by exists [].
  - cbn [sync_entries].
    destruct (call_posts PRODUCT_BY_HANDLE_QUERY (VarsHandle handle) w) as (n & Hn & Hle).
    pose proof (sync_one_dry_posts g handle rows w) as Hposts.
    fold (lookup_request handle) in Hn. rewrite Hn in Hposts.
    destruct (result (sync_one g true handle rows w)) as [[]|e] eqn:Hres.
    + rewrite (bind_ok _ _ _ _ Hres). unfold prepend. cbn [events result].
      destruct (IH (after (sync_one g true handle rows w))) as (IH1 & IH2 & IH3).
      rewrite posts_app, Hposts. split; [|split].
      * apply Forall_app. split; [apply Forall_replicate_read | done].
      * intros Hok. destruct (IH2 Hok) as (ns & Hlen & Hns & Heq).
        exists (n :: ns). rewrite Heq. cbn [length]. rewrite Hlen.
        split; [done|]. split; [by constructor | done].
      * intros Hno Hok. rewrite (IH3 Hno Hok). cbn [map fst]. f_equal.
        pose proof (call_posts_once PRODUCT_BY_HANDLE_QUERY (VarsHandle handle) w
                      (Hno _ w)) as Honce.
        fold (lookup_request handle) in Honce. rewrite Hn in Honce.
        destruct n as [|[|n]]; done.
    + rewrite (bind_throw _ _ _ _ Hres). cbn [events result]. rewrite Hposts.
      split; [apply Forall_replicate_read|]. split; intros; done.
Qed.


(* ===================================================================== *)
(** ** Properties of the orchestrator *)
(* ===================================================================== *)






Lemma variant_of_row (bySku : gmap string VariantNode) (row : ProductRow) :
  vi_sku (variantInput_of bySku row)
  = (if truthy_str (row_sku row) then Some (row_sku row) else None)
  /\ vi_id (variantInput_of bySku row)
     = match (if truthy_str (row_sku row) then bySku !! row_sku row else None) with
       | Some v => if truthy_str (vn_id v) then Some (vn_id v) else None
       | None => None
       end.
Proof. done. Qed.

Lemma truthy_str_true (s : string) : truthy_str s = true <-> s <> "".
Proof. by destruct s. Qed.

Lemma sync_one_live (g : Grouped) (handle : string) (rows : list ProductRow)
    (w : World) (existing : option Product) (input : ProductSetInput) :
  result (fetchProductByHandle handle w) = inl existing ->
  buildProductSetInput handle rows existing
    (default [] (imagesByHandle g !! handle))
    (default [] (metafieldsByHandle g !! handle)) = Some input ->
  sync_one g false handle rows w
  = prepend (EvLog INFO (MsgSyncing handle) :: events (fetchProductByHandle handle w))
            (try_catch (upsert_and_sync handle rows input)
                       (fun _ => error (MsgFailedUpsert handle))
                       (after (fetchProductByHandle handle w))).
Proof.
  intros H Hb. unfold sync_one, info, log. rewrite bind_emit.
  rewrite (bind_ok _ _ _ _ H), Hb. by rewrite prepend_prepend.
Qed.


(** An upsert answered with user errors: the errors are logged and the
    iteration ends there, without any inventory request. *)
Lemma upsert_user_errors (handle : string) (rows : list ProductRow)
    (input : ProductSetInput) (w : World) (data : ResponseData)
    (payload : ProductSetPayload) (e : UserError) (es : list UserError) :
  let call := callShopifyGraphQL PRODUCT_SET_MUTATION (VarsProductSet handle input) w in
  result call = inl data ->
  rd_data data ≫= productSet = Some payload ->
  ps_userErrors payload = Some (e :: es) ->
  try_catch (upsert_and_sync handle rows input)
            (fun _ => error (MsgFailedUpsert handle)) w
  = mkRun (inl tt) (after call)
          (events call ++ [EvLog ERROR (MsgProductSetUserErrors handle (e :: es))]).
Proof.
  intros call Hc Hp Hu. unfold try_catch, upsert_and_sync.
  rewrite (bind_ok _ _ _ _ Hc), Hp, Hu. reflexivity.
Qed.

(** The [try] block posts the upsert request before anything else. *)
Lemma upsert_head (handle : string) (rows : list ProductRow)
    (input : ProductSetInput) (w : World) :
  exists tl,
    events (try_catch (upsert_and_sync handle rows input)
                      (fun _ => error (MsgFailedUpsert handle)) w)
    = EvPost (upsert_request handle input) :: tl.
Proof.
  destruct (events_try_catch_prefix (upsert_and_sync handle rows input)
              (fun _ => error (MsgFailedUpsert handle)) w) as (tl1 & ->).
  unfold upsert_and_sync.
  match goal with
  | |- context [events (bind ?m ?k w)] =>
      destruct (events_bind_prefix m k w) as (tl2 & ->)
  end.
  destruct (call_head PRODUCT_SET_MUTATION (VarsProductSet handle input) w) as (tl3 & ->).
  exists (tl3 ++ tl2 ++ tl1). cbn [app]. by rewrite <- !app_assoc.
Qed.




Lemma posts_setInventoryQuantities (input : InventorySetQuantitiesInput) (w : World) :
  posts (events (setInventoryQuantities input w))
  = posts (events (callShopifyGraphQL INVENTORY_SET_QUANTITIES_MUTATION
                                      (VarsInventory input) w)).
Proof.
  unfold setInventoryQuantities, bind.
  destruct (result (callShopifyGraphQL INVENTORY_SET_QUANTITIES_MUTATION
                                       (VarsInventory input) w)) as [data|e]; [|done].
  cbn [events]. rewrite posts_app.
  destruct ((rd_data data ≫= inventorySetQuantities) ≫= inv_userErrors) as [[|u us]|];
    cbn; by rewrite app_nil_r.
Qed.



(** X10: An upsert answered with user errors inside a pass: the errors are
    logged, no inventory request follows, and the pass goes on with the
    remaining keys. *)
Lemma user_errors_isolated (g : Grouped) (handle : string) (rows : list ProductRow)
    (rest : list (string * list ProductRow)) (w : World)
    (existing : option Product) (input : ProductSetInput) (data : ResponseData)
    (payload : ProductSetPayload) (e : UserError) (es : list UserError) :
  let lookup := fetchProductByHandle handle w in
  let call := callShopifyGraphQL PRODUCT_SET_MUTATION (VarsProductSet handle input)
                                 (after lookup) in
  result lookup = inl existing ->
  buildProductSetInput handle rows existing
    (default [] (imagesByHandle g !! handle))
    (default [] (metafieldsByHandle g !! handle)) = Some input ->
  result call = inl data ->
  rd_data data ≫= productSet = Some payload ->
  ps_userErrors payload = Some (e :: es) ->
  sync_entries g false ((handle, rows) :: rest) w
  = prepend (EvLog INFO (MsgSyncing handle) :: events lookup ++ events call
             ++ [EvLog ERROR (MsgProductSetUserErrors handle (e :: es))])
            (sync_entries g false rest (after call)).
Proof.
  intros lookup call Hf Hb Hc Hp Hu. subst lookup call. cbn [sync_entries].
  set (lookup := fetchProductByHandle handle w) in *.
  set (call := callShopifyGraphQL PRODUCT_SET_MUTATION (VarsProductSet handle input)
                                  (after lookup)) in *.
  assert (Hone : sync_one g false handle rows w
                 = mkRun (inl tt) (after call)
                     (EvLog INFO (MsgSyncing handle) :: events lookup ++ events call
                      ++ [EvLog ERROR (MsgProductSetUserErrors handle (e :: es))])).
  { subst lookup call.
    rewrite (sync_one_live g handle rows w existing input Hf Hb).
    rewrite (upsert_user_errors handle rows input _ data payload e es Hc Hp Hu).
    reflexivity. }
  erewrite bind_ok by (rewrite Hone; reflexivity). by rewrite Hone.
Qed.

(* ===================================================================== *)
(** ** The parser hands over non-empty groups *)
(* ===================================================================== *)

Lemma push_row_keys (handle : string) (row : ProductRow)
    (groups : list (string * list ProductRow)) :
  (push_row handle row groups).*1
  = if bool_decide (handle ∈ groups.*1) then groups.*1 else groups.*1 ++ [handle].
Proof.
  induction groups as [|[h rs] rest IH]; [done|]. cbn [push_row fmap list_fmap fst].
  destruct (String.eqb_spec h handle) as [->|Hne].
  - rewrite bool_decide_eq_true_2 by (apply elem_of_cons; by left). done.
  - cbn [fmap list_fmap fst]. fold (fmap (M:=list) (@fst string (list ProductRow))).
    rewrite IH. destruct (decide (handle ∈ rest.*1)) as [Hin|Hin].
    + rewrite !bool_decide_eq_true_2; [done | apply elem_of_cons; by right | done].
    + rewrite !bool_decide_eq_false_2; [done | | done].
      intros [?|?]%elem_of_cons; congruence.
Qed.

Lemma push_row_well_grouped (handle : string) (row : ProductRow)
    (groups : list (string * list ProductRow)) :
  handle <> "" -> well_grouped groups -> well_grouped (push_row handle row groups).
Proof.
  intros Hne [Hnd Hall]. split.
  - rewrite push_row_keys. case_bool_decide; [done|].
    apply NoDup_app. split; [done|]. split; [|apply NoDup_singleton].
    intros x Hx ->%list_elem_of_singleton. done.
  - clear Hnd. induction groups as [|[h rs] rest IH]; cbn [push_row].
    + by repeat constructor.
    + apply Forall_cons in Hall as [[H1 H2] Hall].
      destruct (String.eqb h handle); constructor; auto.
      split; [done|]. by destruct rs.
Qed.

(** Grouping never fails, does not touch the endpoint, and whatever the
    sheet holds the groups it returns have distinct non-empty handles and
    at least one row each. *)
Lemma groupProductsByHandle_well_grouped (productRows : list ProductRow) (w : World) :
  exists groups evs,
    groupProductsByHandle productRows w = mkRun (inl groups) w evs
    /\ well_grouped groups.
Proof.
  unfold groupProductsByHandle.
  assert (H : well_grouped []) by (split; constructor).
  revert H. generalize (@nil (string * list ProductRow)).
  induction productRows as [|row rest IH]; intros groups Hg.
  - by exists groups, [].
  - cbn [group_rows].
    destruct (truthy_str (trim (str_or_empty (ProductHandle row)))) eqn:Ht; cbn [negb].
    + apply truthy_str_true in Ht.
      apply IH. by apply push_row_well_grouped.
    + destruct (IH groups Hg) as (groups' & evs & Heq & Hg').
      exists groups', (EvLog WARN (MsgSkippingRow (ProductHandle row)) :: evs).
      split; [|done]. unfold warn, log. by rewrite bind_emit, Heq.
Qed.

(* ===================================================================== *)
(** ** More about the executor: waits *)
(* ===================================================================== *)

Lemma suggested_not_NaN (x : JsNum) :
  js_isNaN x = false -> js_isNaN (js_mul x (Fin 1000)) = false.
Proof. by destruct x. Qed.

Lemma js_le_max_l (b : Q) (y : JsNum) :
  js_isNaN y = false -> js_le (Fin b) (js_max (Fin b) y) = true.
Proof.
  destruct y as [y| | |]; [|done|done|]; intros _; cbn.
  - destruct (Qltb b y) eqn:E; cbn; apply Qle_bool_iff.
    + apply Qltb_true in E. by apply Qlt_le_weak.
    + apply Qle_refl.
  - apply Qle_bool_iff, Qle_refl.
Qed.

(** The wait chosen after a 429 is never shorter than the backoff: the
    [retry-after] header can only lengthen it. *)
Lemma retryAfterMs_of_floor (b : Z) (h : option string) :
  js_le (Fin (inject_Z b)) (retryAfterMs_of b h) = true.
Proof.
  unfold retryAfterMs_of.
  assert (Hrefl : js_le (Fin (inject_Z b)) (Fin (inject_Z b)) = true)
    by apply Qle_bool_iff, Qle_refl.
  destruct h as [h|]; [|done]. destruct (truthy_str h); [|done].
  destruct (js_isNaN (parseFloat h)) eqn:E; [done|]. cbn [negb].
  by apply js_le_max_l, suggested_not_NaN.
Qed.

Lemma retry_events_floor (req : Request) (errs : list AxiosError)
    (i : nat) (d : JsNum) :
  sleeps (retry_events req 0 INITIAL_BACKOFF_MS errs) !! i = Some d ->
  js_le (Fin (inject_Z (1000 * 2 ^ Z.of_nat i))) d = true.
Proof.
  rewrite sleeps_retry_events, list_lookup_imap.
  destruct (errs !! i) as [e|]; [|done]. cbn. intros [= <-].
  apply retryAfterMs_of_floor.
Qed.

(** X1: Whatever the [retry-after] headers say, the wait of a call after
    its [i]-th 429 rejection (from 0) is at least [1000 * 2^i] ms: the
    header can lengthen a backoff wait, never shorten it. *)
Theorem backoff_is_a_floor (q : Query) (v : Variables) (errs : list AxiosError)
    (w w1 : World) (i : nat) (d : JsNum) :
  let req := {| query := q; variables := v |} in
  rejects_429 req w errs w1 ->
  (length errs <= MAX_RETRIES)%nat ->
  (i < length errs)%nat ->
  sleeps (events (callShopifyGraphQL q v w)) !! i = Some d ->
  js_le (Fin (inject_Z (1000 * 2 ^ Z.of_nat i))) d = true.
Proof.
  intros req Hr Hk Hi. rewrite (call_after_rejects q v errs w w1 Hr Hk). fold req.
  unfold prepend. cbn [events].
  rewrite sleeps_app, lookup_app_l by (rewrite sleeps_retry_events_length; lia).
  apply retry_events_floor.
Qed.

(** X2: A response that reports a restore rate of zero or less is returned
    without pacing wait, however few credits are left: the division by the
    rate is never made. *)
Theorem no_pacing_without_restore (q : Query) (v : Variables)
    (errs : list AxiosError) (w w1 w2 : World) (data : ResponseData) (a r : Q) :
  let req := {| query := q; variables := v |} in
  rejects_429 req w errs w1 ->
  (length errs <= MAX_RETRIES)%nat ->
  post req w1 = (Resolved data, w2) ->
  envelope_numbers data = Some (a, r) ->
  (r <= 0)%Q ->
  let run := callShopifyGraphQL q v w in
  result run = inl data /\ after run = w2 /\
  sleeps (events run) = sleeps (retry_events req 0 INITIAL_BACKOFF_MS errs).
Proof.
  intros req Hr Hk Hp Hn Hle run. subst run.
  rewrite (call_resolved q v errs w w1 w2 data Hr Hk Hp). fold req.
  cbn [result after events]. split; [done|]. split; [done|].
  rewrite sleeps_app. change (sleeps (EvPost req :: ?l)) with (sleeps l).
  destruct (has_errors data) eqn:He.
  - by rewrite (sleeps_response_events_errors data He), app_nil_r.
  - rewrite (sleeps_response_events_numbers data a r He Hn).
    apply Qltb_false in Hle. rewrite Hle, andb_false_r. by rewrite app_nil_r.
Qed.

Lemma Qceiling_pos (x : Q) : (0 < x)%Q -> (0 < Qceiling x)%Z.
Proof.
  intros Hx. pose proof (Qle_ceiling x) as Hc.
  assert (H : (0 < inject_Z (Qceiling x))%Q) by (eapply Qlt_le_trans; eauto).
  unfold Qlt in H. cbn in H. lia.
Qed.

(** X3: The pacing wait is at least one millisecond, and the fewer credits are
    left the longer it is. *)
Theorem throttleWaitMs_monotone (a a' r : Q) :
  (0 < r)%Q -> (a <= a')%Q -> (a' < 50)%Q ->
  (0 < throttleWaitMs a' r <= throttleWaitMs a r)%Z.
Proof.
  intros Hr Hle Ha'.
  assert (Ha : (a < 50)%Q) by (eapply Qle_lt_trans; eauto).
  rewrite (throttleWaitMs_formula a r Ha Hr), (throttleWaitMs_formula a' r Ha' Hr).
  assert (Hinv : (0 < / r)%Q) by by apply Qinv_lt_0_compat.
  split.
  - apply Qceiling_pos. unfold Qdiv.
    apply Qmult_lt_0_compat; [|done].
    apply Qmult_lt_0_compat; [lra | done].
  - apply Qceiling_resp_le. unfold Qdiv.
    apply Qmult_le_compat_r; [|done].
    apply Qmult_le_compat_r; [lra | by apply Qlt_le_weak].
Qed.

(* ===================================================================== *)
(** ** More about the gateway and the inventory reconciliation *)
(* ===================================================================== *)

Lemma posts_bind {A B} (m : M A) (k : A -> M B) (w : World) :
  posts (events (bind m k w))
  = posts (events (m w))
    ++ match result (m w) with
       | inl a => posts (events (k a (after (m w))))
       | inr _ => []
       end.
Proof.
  unfold bind. destruct (result (m w)); cbn [events].
  - apply posts_app.
  - by rewrite app_nil_r.
Qed.

Lemma posts_try_catch {A} (m : M A) (h : Exn -> M A) (w : World) :
  posts (events (try_catch m h w))
  = posts (events (m w))
    ++ match result (m w) with
       | inl _ => []
       | inr e => posts (events (h e (after (m w))))
       end.
Proof.
  unfold try_catch. destruct (result (m w)); cbn [events].
  - by rewrite app_nil_r.
  - apply posts_app.
Qed.

Lemma posts_fetch_replicate (handle : string) (w : World) :
  exists n, posts (events (fetchProductByHandle handle w))
            = replicate n (lookup_request handle)
            /\ (1 <= n <= MAX_RETRIES + 1)%nat.
Proof. rewrite posts_fetch. apply call_posts. Qed.

(** The loop that fills [quantities] does not talk to the endpoint, and
    each line it makes comes from a row with a SKU that resolves to an
    inventory item and with a quantity that is present and a number. *)
Lemma quantity_lines_run (handle : string) (bySku : gmap string string)
    (rows : list ProductRow) (w : World) :
  exists lines warns,
    quantity_lines handle bySku rows w = mkRun (inl lines) w warns
    /\ posts warns = []
    /\ (length lines <= length rows)%nat
    /\ Forall (fun l =>
                 locationId l = defaultLocationId
                 /\ inventoryItemId l <> ""
                 /\ js_isNaN (quantity l) = false
                 /\ exists row,
                      row ∈ rows
                      /\ bySku !! row_sku row = Some (inventoryItemId l)
                      /\ cell_present (VariantInventoryQuantity row) = true
                      /\ quantity l = cell_to_number (VariantInventoryQuantity row))
              lines.
Proof.
  induction rows as [|row rows IH].
  - exists [], []. by repeat split.
  - destruct IH as (lines & warns & Hrun & Hposts & Hlen & Hall).
    assert (Hweak :
      Forall (fun l =>
                 locationId l = defaultLocationId
                 /\ inventoryItemId l <> ""
                 /\ js_isNaN (quantity l) = false
                 /\ exists row0,
                      row0 ∈ row :: rows
                      /\ bySku !! row_sku row0 = Some (inventoryItemId l)
                      /\ cell_present (VariantInventoryQuantity row0) = true
                      /\ quantity l = cell_to_number (VariantInventoryQuantity row0))
              lines).
    { eapply Forall_impl; [exact Hall|]. intros l (H1 & H2 & H3 & row0 & H4 & H5).
      repeat split; try done. exists row0. split; [by apply elem_of_cons; right | done]. }
    cbn [quantity_lines length]. fold (row_sku row).
    destruct (truthy_str (row_sku row)); cbn [negb];
      [|exists lines, warns; repeat split; (done || lia)].
    destruct (cell_present (VariantInventoryQuantity row)) eqn:Hq; cbn [negb];
      [|exists lines, warns; repeat split; (done || lia)].
    destruct (js_isNaN (cell_to_number (VariantInventoryQuantity row))) eqn:Hn;
      [exists lines, warns; repeat split; (done || lia)|].
    destruct (bySku !! row_sku row) as [[|c item]|] eqn:Hm.
    + exists lines, (EvLog WARN (MsgNoInventoryItem (row_sku row) handle) :: warns).
      unfold warn, log. rewrite bind_emit, Hrun. repeat split; (done || lia).
    + eexists _, warns. erewrite bind_ok by (rewrite Hrun; reflexivity).
      rewrite Hrun. unfold prepend. cbn [result after events ret app].
      rewrite app_nil_r. split; [reflexivity|]. split; [done|].
      split; [cbn; lia|]. constructor; [|done]. cbn.
      repeat split; try done. exists row. split; [by apply elem_of_cons; left | done].
    + exists lines, (EvLog WARN (MsgNoInventoryItem (row_sku row) handle) :: warns).
      unfold warn, log. rewrite bind_emit, Hrun. repeat split; (done || lia).
Qed.

(** X5: Every request of the inventory reconciliation is the lookup of the
    product or, after it, one and the same inventory write: named
    "available", with reason "correction", ignoring the compare quantity,
    and with at least one line, each for the configured location, with a
    non-empty inventory item and a quantity that is a number. *)
Theorem inventory_requests_shape (handle : string) (rows : list ProductRow)
    (w : World) :
  Forall (fun r => r = lookup_request handle \/ inventory_write_ok rows r)
         (posts (events (syncInventoryForProduct handle rows w))).
Proof.
  unfold syncInventoryForProduct.
  destruct (truthy_str defaultLocationId); cbn [negb]; [|constructor].
  rewrite posts_bind. apply Forall_app. split.
  - destruct (posts_fetch_replicate handle w) as (n & -> & _).
    apply Forall_replicate. by left.
  - destruct (result (fetchProductByHandle handle w)) as [[product|]|e]; [|constructor..].
    set (u := after (fetchProductByHandle handle w)).
    destruct (quantity_lines_run handle (inventoryItemIdBySku product) rows u)
      as (lines & warns & Hrun & Hposts & Hlen & Hall).
    rewrite posts_bind, Hrun. cbn [events result after]. rewrite Hposts. cbn [app].
    destruct lines as [|l lines]; [constructor|].
    unfold info, log. rewrite bind_emit. unfold prepend. cbn [events].
    change (posts ([EvLog ?a ?b] ++ ?x)) with (posts x).
    rewrite posts_bind, posts_setInventoryQuantities.
    match goal with
    | |- context [callShopifyGraphQL ?q (VarsInventory ?i) ?x] =>
        destruct (call_posts q (VarsInventory i) x) as (n & -> & _);
        set (input := i)
    end.
    apply Forall_app. split.
    + apply Forall_replicate. right. exists input. repeat split; try done.
      eapply Forall_impl; [exact Hall|]. by intros ? (? & ? & ? & _).
    + by destruct (result (setInventoryQuantities input u)).
Qed.

(** X6: When the quantity cell of every row is blank, the reconciliation
    writes nothing: only the lookup is posted. *)
Theorem no_quantity_no_inventory_write (handle : string) (rows : list ProductRow)
    (w : World) :
  Forall (fun row => cell_present (VariantInventoryQuantity row) = false) rows ->
  Forall (fun r => r = lookup_request handle)
         (posts (events (syncInventoryForProduct handle rows w))).
Proof.
  intros Hblank. unfold syncInventoryForProduct.
  destruct (truthy_str defaultLocationId); cbn [negb]; [|constructor].
  rewrite posts_bind. apply Forall_app. split.
  - destruct (posts_fetch_replicate handle w) as (n & -> & _).
    by apply Forall_replicate.
  - destruct (result (fetchProductByHandle handle w)) as [[product|]|e]; [|constructor..].
    set (u := after (fetchProductByHandle handle w)).
    destruct (quantity_lines_run handle (inventoryItemIdBySku product) rows u)
      as (lines & warns & Hrun & Hposts & Hlen & Hall).
    rewrite posts_bind, Hrun. cbn [events result after]. rewrite Hposts. cbn [app].
    destruct lines as [|l lines]; [constructor|].
    apply Forall_cons in Hall as [(_ & _ & _ & row & Hin & _ & Hq & _) _].
    rewrite Forall_forall in Hblank. rewrite (Hblank row Hin) in Hq. done.
Qed.

(* ===================================================================== *)
(** ** More about the sync loop *)
(* ===================================================================== *)





(** X8: A lookup answered with a body that carries GraphQL errors and no data
    reads as "not found": the iteration goes on and upserts a payload in
    which no variant has an identifier. *)
Theorem errored_lookup_reads_as_not_found (g : Grouped) (handle : string)
    (rows : list ProductRow) (w w1 : World) (data : ResponseData) :
  post (lookup_request handle) w = (Resolved data, w1) ->
  has_errors data = true ->
  rd_data data = None ->
  rows <> [] ->
  result (fetchProductByHandle handle w) = inl None /\
  exists input tl,
    buildProductSetInput handle rows None
      (default [] (imagesByHandle g !! handle))
      (default [] (metafieldsByHandle g !! handle)) = Some input
    /\ Forall (fun vi => vi_id vi = None) (psi_variants input)
    /\ events (sync_one g false handle rows w)
       = [EvLog INFO (MsgSyncing handle);
          EvPost (lookup_request handle);
          EvLog ERROR (MsgGraphQLErrors (default [] (rd_errors data)));
          EvLog INFO (MsgNoExisting handle);
          EvPost (upsert_request handle input)] ++ tl.
Proof.
  intros Hp He Hd Hrows.
  assert (Hcall : callShopifyGraphQL PRODUCT_BY_HANDLE_QUERY (VarsHandle handle) w
                  = mkRun (inl data) w1
                      [EvPost (lookup_request handle);
                       EvLog ERROR (MsgGraphQLErrors (default [] (rd_errors data)))]).
  { rewrite (call_resolved _ _ [] w w w1 data (rejects_nil _ _)) by (done || cbn; lia).
    unfold response_events. by rewrite He. }
  assert (Hf : fetchProductByHandle handle w
               = mkRun (inl None) w1
                   [EvPost (lookup_request handle);
                    EvLog ERROR (MsgGraphQLErrors (default [] (rd_errors data)));
                    EvLog INFO (MsgNoExisting handle)]).
  { rewrite (fetch_ok handle w data) by by rewrite Hcall. by rewrite Hcall, Hd. }
  split; [by rewrite Hf|].
  destruct (build_some handle rows None
              (default [] (imagesByHandle g !! handle))
              (default [] (metafieldsByHandle g !! handle)) Hrows) as (input & Hb & Hv).
  destruct (upsert_head handle rows input w1) as (tl & Htl).
  exists input, tl. split; [done|]. split.
  - rewrite Hv. apply Forall_fmap, Forall_true. intros row.
    destruct (variant_of_row (existingVariantsBySku None) row) as (_ & Hid).
    change (vi_id (variantInput_of (existingVariantsBySku None) row) = None).
    rewrite Hid. unfold existingVariantsBySku. cbn [existing_nodes foldl].
    rewrite lookup_empty. by destruct (truthy_str (row_sku row)).
  - rewrite (sync_one_live g handle rows w None input) by (by rewrite Hf || done).
    rewrite Hf. unfold prepend. cbn [events after]. by rewrite Htl.
Qed.

Lemma posts_le_bind {A B} (m : M A) (k : A -> M B) (w : World) (a b : nat) :
  (length (posts (events (m w))) <= a)%nat ->
  (forall x u, length (posts (events (k x u))) <= b)%nat ->
  (length (posts (events (bind m k w))) <= a + b)%nat.
Proof.
  intros Hm Hk. rewrite posts_bind, length_app.
  destruct (result (m w)) as [x|e]; [specialize (Hk x (after (m w)))|]; cbn; lia.
Qed.

Lemma posts_le_call (q : Query) (v : Variables) (w : World) :
  (length (posts (events (callShopifyGraphQL q v w))) <= MAX_RETRIES + 1)%nat.
Proof.
  destruct (call_posts q v w) as (n & -> & Hn). rewrite length_replicate. lia.
Qed.

Lemma posts_le_syncInventory (handle : string) (rows : list ProductRow) (w : World) :
  (length (posts (events (syncInventoryForProduct handle rows w)))
   <= 2 * (MAX_RETRIES + 1))%nat.
Proof.
  unfold syncInventoryForProduct.
  destruct (truthy_str defaultLocationId); cbn [negb]; [|cbn; lia].
  replace (2 * (MAX_RETRIES + 1))%nat with ((MAX_RETRIES + 1) + (MAX_RETRIES + 1))%nat by lia.
  apply posts_le_bind.
  - rewrite posts_fetch. apply posts_le_call.
  - intros [product|] u; [|cbn; lia].
    destruct (quantity_lines_run handle (inventoryItemIdBySku product) rows u)
      as (lines & warns & Hrun & Hposts & _).
    rewrite posts_bind, Hrun. cbn [events result after]. rewrite Hposts. cbn [app].
    destruct lines as [|l lines]; [cbn; lia|].
    unfold info, log. rewrite bind_emit. unfold prepend. cbn [events].
    change (posts ([EvLog ?a ?b] ++ ?x)) with (posts x).
    change (MAX_RETRIES + 1)%nat with ((MAX_RETRIES + 1) + 0)%nat.
    apply posts_le_bind; [|by intros].
    rewrite posts_setInventoryQuantities. apply posts_le_call.
Qed.

Lemma posts_le_sync_one (g : Grouped) (dryRun : bool) (handle : string)
    (rows : list ProductRow) (w : World) :
  (length (posts (events (sync_one g dryRun handle rows w)))
   <= 4 * (MAX_RETRIES + 1))%nat.
Proof.
  unfold sync_one, info, log. rewrite bind_emit. unfold prepend. cbn [events].
  change (posts ([EvLog ?a ?b] ++ ?x)) with (posts x).
  replace (4 * (MAX_RETRIES + 1))%nat
    with ((MAX_RETRIES + 1) + 3 * (MAX_RETRIES + 1))%nat by lia.
  apply posts_le_bind.
  - rewrite posts_fetch. apply posts_le_call.
  - intros existing u.
    destruct (buildProductSetInput handle rows existing _ _) as [input|]; [|cbn; lia].
    destruct dryRun; [cbn; lia|].
    rewrite posts_try_catch.
    assert (H : (length (posts (events (upsert_and_sync handle rows input u)))
                 <= 3 * (MAX_RETRIES + 1))%nat).
    { unfold upsert_and_sync.
      replace (3 * (MAX_RETRIES + 1))%nat
        with ((MAX_RETRIES + 1) + 2 * (MAX_RETRIES + 1))%nat by lia.
      apply posts_le_bind; [apply posts_le_call|].
      intros data u'. destruct (rd_data data ≫= productSet) as [payload|]; [|cbn; lia].
      destruct (ps_userErrors payload) as [[|? ?]|];
        try (cbn; lia);
        (destruct (ps_product payload); [|cbn; lia]);
        unfold info, log; rewrite bind_emit; unfold prepend; cbn [events];
        change (posts ([EvLog ?a ?b] ++ ?x)) with (posts x);
        apply posts_le_syncInventory. }
    rewrite length_app.
    destruct (result (upsert_and_sync handle rows input u));
      unfold MAX_RETRIES in *; cbn; lia.
Qed.

(** X9: A pass posts at most four calls for each grouping key (lookup, upsert,
    second lookup, inventory write), each of at most [MAX_RETRIES + 1]
    requests: 24 requests per key. *)
Theorem pass_request_bound (g : Grouped) (dryRun : bool) (w : World) :
  (length (posts (events (syncAllProductsFromExcel g dryRun w)))
   <= 4 * (MAX_RETRIES + 1) * length (productsByHandle g))%nat.
Proof.
  unfold syncAllProductsFromExcel.
  replace (4 * (MAX_RETRIES + 1) * length (productsByHandle g))%nat
    with (4 * (MAX_RETRIES + 1) * length (productsByHandle g) + 0)%nat by lia.
  apply posts_le_bind; [|by intros].
  generalize (productsByHandle g) as entries. intros entries. revert w.
  induction entries as [|[handle rows] rest IH]; intros w; [cbn; lia|].
  cbn [sync_entries length].
  replace (4 * (MAX_RETRIES + 1) * S (length rest))%nat
    with (4 * (MAX_RETRIES + 1) + 4 * (MAX_RETRIES + 1) * length rest)%nat by lia.
  apply posts_le_bind; [apply posts_le_sync_one | intros; apply IH].
Qed.

(* ===================================================================== *)
(** ** More about the payload *)
(* ===================================================================== *)

Lemma drop_spaces_split (l : list ascii) :
  exists sp, l = sp ++ drop_spaces l /\ Forall (fun a => is_space a = true) sp.
Proof.
  induction l as [|a l (sp & Hl & Hsp)]; [by exists []|]. cbn [drop_spaces].
  destruct (is_space a) eqn:E.
  - exists (a :: sp). split; [by rewrite Hl at 1 | by constructor].
  - by exists [].
Qed.

Lemma drop_spaces_idem (l : list ascii) : drop_spaces (drop_spaces l) = drop_spaces l.
Proof.
  induction l as [|a l IH]; [done|]. cbn [drop_spaces].
  destruct (is_space a) eqn:E; [done|]. cbn [drop_spaces]. by rewrite E.
Qed.

Lemma drop_spaces_elem (l : list ascii) (x : ascii) : x ∈ drop_spaces l -> x ∈ l.
Proof.
  destruct (drop_spaces_split l) as (sp & Hl & _). intros H. rewrite Hl.
  apply elem_of_app. by right.
Qed.

Lemma trim_chars (s : string) :
  list_ascii_of_string (trim s)
  = rev (drop_spaces (rev (drop_spaces (list_ascii_of_string s)))).
Proof. unfold trim. apply list_ascii_of_string_of_list_ascii. Qed.

Lemma elem_of_rev_iff {A} (l : list A) (x : A) : x ∈ rev l <-> x ∈ l.
Proof. rewrite !list_elem_of_In. symmetry. apply in_rev. Qed.

Lemma trim_elem (s : string) (x : ascii) :
  x ∈ list_ascii_of_string (trim s) -> x ∈ list_ascii_of_string s.
Proof.
  rewrite trim_chars, elem_of_rev_iff.
  intros H. apply drop_spaces_elem in H. apply (proj1 (elem_of_rev_iff _ _)) in H.
  by apply drop_spaces_elem.
Qed.

(** Trimming what is trimmed changes nothing. *)
Lemma trim_idem (s : string) : trim (trim s) = trim s.
Proof.
  unfold trim at 1. rewrite trim_chars.
  set (l1 := drop_spaces (list_ascii_of_string s)).
  set (t := drop_spaces (rev l1)).
  assert (Hhead : drop_spaces (rev t) = rev t).
  { destruct (drop_spaces_split (rev l1)) as (sp & Hl & _). fold t in Hl.
    assert (Hl1 : l1 = rev t ++ rev sp).
    { rewrite <- (rev_involutive l1), Hl. apply rev_app_distr. }
    assert (Hfix : drop_spaces l1 = l1) by apply drop_spaces_idem.
    destruct (rev t) as [|a r]; [done|].
    rewrite Hl1 in Hfix. cbn [app drop_spaces] in *.
    destruct (is_space a); [|done].
    exfalso. destruct (drop_spaces_split (r ++ rev sp)) as (sp' & Hsp' & _).
    rewrite Hfix in Hsp'. apply (f_equal length) in Hsp'.
    rewrite !length_app in Hsp'. cbn [length] in Hsp'.
    rewrite !length_app in Hsp'. lia. }
  rewrite Hhead, rev_involutive. unfold t at 1. rewrite drop_spaces_idem.
  reflexivity.
Qed.

Lemma split_aux_no_sep (sep : ascii) (l cur : list ascii) :
  sep ∉ cur ->
  Forall (fun s => sep ∉ list_ascii_of_string s) (split_aux sep cur l).
Proof.
  revert cur. induction l as [|a l IH]; intros cur Hcur; cbn [split_aux].
  - constructor; [|constructor]. rewrite list_ascii_of_string_of_list_ascii.
    by rewrite elem_of_rev_iff.
  - destruct (Ascii.eqb_spec a sep) as [->|Hne].
    + constructor.
      * rewrite list_ascii_of_string_of_list_ascii.
        by rewrite elem_of_rev_iff.
      * apply IH. apply not_elem_of_nil.
    + apply IH. intros [?|?]%elem_of_cons; congruence.
Qed.

(** X12: The tags sent are the comma-separated pieces of the cell, trimmed, and
    without the blank ones: no tag is empty, has a blank at either end or
    holds a comma; a blank cell gives no tag. *)
Theorem parseTags_clean (tagsString : Cell) :
  Forall (fun t => t <> "" /\ trim t = t /\ ","%char ∉ list_ascii_of_string t)
         (parseTags tagsString)
  /\ (truthy_cell tagsString = false -> parseTags tagsString = []).
Proof.
  unfold parseTags. destruct (truthy_cell tagsString); cbn [negb]; [|by split].
  split; [|done]. apply Forall_forall. intros t Ht.
  apply list_elem_of_filter in Ht as [Htruthy Ht].
  apply list_elem_of_fmap in Ht as (piece & -> & Hpiece).
  split; [by apply truthy_str_true|]. split; [apply trim_idem|].
  intros Hin%trim_elem.
  pose proof (split_aux_no_sep "," (list_ascii_of_string (cell_to_string tagsString)) []
                (not_elem_of_nil _)) as Hall.
  rewrite Forall_forall in Hall. by apply (Hall piece Hpiece).
Qed.


Lemma set_order_spec (l : list string) :
  forall (seen : gset string) (x : string),
    x ∈ set_order seen l <-> x ∈ l /\ x ∉ seen.
Proof.
  induction l as [|y l IH]; intros seen x; cbn [set_order].
  - split; [by intros ?%elem_of_nil | by intros [?%elem_of_nil _]].
  - case_bool_decide as Hy.
    + rewrite IH, elem_of_cons. split; [intros [? ?]; split; [by right | done]|].
      intros [[->|?] ?]; [done | by split].
    + rewrite !elem_of_cons, IH, elem_of_union, elem_of_singleton. split.
      * intros [->|[? ?]]; [by split; [left|] | split; [by right | tauto]].
      * intros [[->|?] ?]; [by left|].
        destruct (decide (x = y)) as [->|?]; [by left | right; tauto].
Qed.

Lemma set_order_NoDup (l : list string) :
  forall seen : gset string, NoDup (set_order seen l).
Proof.
  induction l as [|y l IH]; intros seen; cbn [set_order]; [constructor|].
  case_bool_decide; [apply IH|]. constructor; [|apply IH].
  rewrite set_order_spec, elem_of_union, elem_of_singleton. tauto.
Qed.




(* ===================================================================== *)
(** ** The configuration *)
(* ===================================================================== *)

Lemma env_set_true (env : gmap string string) (name : string) :
  env_set env name = true ->
  env !! name = Some (default "" (env !! name)) /\ default "" (env !! name) <> "".
Proof.
  unfold env_set. destruct (env !! name) as [v|]; [|done].
  intros H%truthy_str_true. by split.
Qed.

(** X16: [getConfig] returns the four settings when each of them is set to a
    non-empty value, and then they are the values of the environment;
    otherwise it throws, naming exactly the variables that are unset or
    empty, in the fixed order of [REQUIRED_ENV]. *)
Theorem getConfig_spec (env : gmap string string) :
  match getConfig env with
  | inr config =>
      env !! "SHOPIFY_STORE_DOMAIN" = Some (cfg_storeDomain config)
      /\ env !! "SHOPIFY_ACCESS_TOKEN" = Some (cfg_accessToken config)
      /\ env !! "SHOPIFY_API_VERSION" = Some (cfg_apiVersion config)
      /\ env !! "SHOPIFY_DEFAULT_LOCATION_ID" = Some (cfg_defaultLocationId config)
      /\ cfg_storeDomain config <> "" /\ cfg_accessToken config <> ""
      /\ cfg_apiVersion config <> "" /\ cfg_defaultLocationId config <> ""
  | inl err =>
      err = ErrMissingEnv (filter (fun name => env_set env name = false) REQUIRED_ENV)
      /\ filter (fun name => env_set env name = false) REQUIRED_ENV <> []
  end.
Proof.
  unfold getConfig, REQUIRED_ENV.
  rewrite !filter_cons, filter_nil.
  destruct (env_set env "SHOPIFY_STORE_DOMAIN") eqn:E1;
    destruct (env_set env "SHOPIFY_ACCESS_TOKEN") eqn:E2;
    destruct (env_set env "SHOPIFY_API_VERSION") eqn:E3;
    destruct (env_set env "SHOPIFY_DEFAULT_LOCATION_ID") eqn:E4;
    cbn; try (split; [reflexivity | discriminate]).
  destruct (env_set_true _ _ E1), (env_set_true _ _ E2),
    (env_set_true _ _ E3), (env_set_true _ _ E4).
  by repeat split.
Qed.

(* ===================================================================== *)
(** ** The start-up monad: how runs compose *)
(* ===================================================================== *)

Lemma cbind_ok {A B} (m : C A) (k : A -> C B) (w w1 : World) (a : A)
    (l : list StartupLog) :
  m w = mkCli (inr a) w1 l ->
  cbind m k w = cprepend l (k a w1).
Proof. intros H. unfold cbind. by rewrite H. Qed.

Lemma cbind_throw {A B} (m : C A) (k : A -> C B) (w w1 : World)
    (e : StartupError) (l : list StartupLog) :
  m w = mkCli (inl e) w1 l ->
  cbind m k w = mkCli (inl e) w1 l.
Proof. intros H. unfold cbind. by rewrite H. Qed.

Lemma cbind_clog {B} (lvl : Level) (msg : StartupMsg) (k : C B) (w : World) :
  (clog lvl msg ~;; k) w = cprepend [SLog lvl msg] (k w).
Proof. reflexivity. Qed.

Lemma cli_events_app (l1 l2 : list StartupLog) :
  cli_events (l1 ++ l2) = cli_events l1 ++ cli_events l2.
Proof. apply omap_app. Qed.

Lemma cli_events_lift (evs : list Event) : cli_events (map SEvent evs) = evs.
Proof. induction evs as [|e evs IH]; [done|]. cbn. by rewrite <- IH at 2. Qed.

Lemma cli_posts_app (l1 l2 : list StartupLog) :
  cli_posts (l1 ++ l2) = cli_posts l1 ++ cli_posts l2.
Proof. unfold cli_posts. by rewrite cli_events_app, posts_app. Qed.

(* ===================================================================== *)
(** ** The parser: validation and grouping *)
(* ===================================================================== *)

Lemma filter_nil_Forall {A} (P : A -> Prop) `{forall x, Decision (P x)} (l : list A) :
  filter P l = [] <-> Forall (fun x => ~ P x) l.
Proof.
  induction l as [|x l IH]; [by split; [constructor|]|].
  rewrite filter_cons, Forall_cons. destruct (decide (P x)); [|tauto].
  split; [done | tauto].
Qed.

(** X17: The columns are checked on the first row only: the call fails exactly
    when that row lacks a required column, and then it names the missing
    columns in the order they are required; a sheet without rows passes
    with a warning. *)
Theorem validateColumns_spec (rows : list (gmap string Cell))
    (requiredColumns : list string) (sheetName : string) (w : World) :
  let r := validateColumns rows requiredColumns sheetName w in
  c_after r = w /\ cli_events (c_log r) = [] /\
  match rows with
  | [] => r = mkCli (inr tt) w [SLog WARN (SMsgNoData sheetName)]
  | firstRow :: rest =>
      r = validateColumns [firstRow] requiredColumns sheetName w /\
      (Forall (fun col => is_Some (firstRow !! col)) requiredColumns ->
       r = mkCli (inr tt) w []) /\
      (~ Forall (fun col => is_Some (firstRow !! col)) requiredColumns ->
       r = mkCli (inl (ErrMissingColumns sheetName
                         (filter (fun col => firstRow !! col = None) requiredColumns)))
                 w []
       /\ filter (fun col => firstRow !! col = None) requiredColumns <> [])
  end.
Proof.
  intros r. subst r. destruct rows as [|firstRow rest]; [done|].
  cbn [validateColumns].
  assert (Hiff : filter (fun col => firstRow !! col = None) requiredColumns = []
                 <-> Forall (fun col => is_Some (firstRow !! col)) requiredColumns).
  { rewrite filter_nil_Forall. apply Forall_proper; [|done]. intros col.
    by rewrite not_eq_None_Some. }
  destruct (filter (fun col => firstRow !! col = None) requiredColumns) as [|c cs] eqn:E.
  - split; [done|]. split; [done|]. split; [done|]. split; [done|].
    intros Hnot. destruct Hnot. by apply Hiff.
  - split; [done|]. split; [done|]. split; [done|]. split; [|done].
    intros Hall. apply Hiff in Hall. done.
Qed.

Lemma push_to_lookup {V} (h h' : string) (v : V) (m : gmap string (list V)) :
  push_to h v m !! h'
  = if decide (h = h') then Some (default [] (m !! h) ++ [v]) else m !! h'.
Proof. unfold push_to. apply lookup_insert. Qed.

Lemma group_lookup_iff {V} (l rs : list V) :
  group_lookup l = Some rs <-> rs = l /\ rs <> [].
Proof.
  destruct l; cbn; [by split; [|intros [-> ?]]|].
  split; [by intros [= <-] | by intros [-> _]].
Qed.

(** One more row for a handle, in a map that already holds the groups of
    the rows before it. *)
Lemma grouped_step {V} (m m' : gmap string (list V)) (h h0 : string) (v : V)
    (l : list V) :
  m' !! h = match l with
            | [] => push_to h0 v m !! h
            | x :: xs => Some (default [] (push_to h0 v m !! h) ++ x :: xs)
            end ->
  m' !! h = match (if decide (Some h0 = Some h) then v :: l else l) with
            | [] => m !! h
            | x :: xs => Some (default [] (m !! h) ++ x :: xs)
            end.
Proof.
  rewrite push_to_lookup. intros ->.
  destruct (decide (Some h0 = Some h)) as [[= ->]|Hne].
  - rewrite decide_True by reflexivity. destruct l as [|x l]; [reflexivity|].
    cbn [default from_option id]. by rewrite <- app_assoc.
  - rewrite decide_False by congruence. by destruct l.
Qed.

Lemma image_key_cases (row : gmap string Cell) :
  let handle := trim (str_or_empty (read_field row "ProductHandle")) in
  let src := trim (str_or_empty (read_field row "ImageSrc")) in
  (image_key row = Some handle
   /\ negb (truthy_str handle) || negb (truthy_str src) = false)
  \/ (image_key row = None
      /\ negb (truthy_str handle) || negb (truthy_str src) = true).
Proof.
  unfold image_key.
  destruct (truthy_str (trim (str_or_empty (read_field row "ProductHandle")))),
    (truthy_str (trim (str_or_empty (read_field row "ImageSrc")))); cbn; auto.
Qed.

Lemma group_images_run (imageRows : list (gmap string Cell)) :
  forall (m : gmap string (list ImageRow)) (w : World),
  exists m' logs,
    group_images imageRows m w = mkCli (inr m') w logs
    /\ cli_events logs = []
    /\ forall h, m' !! h = match images_of h imageRows with
                           | [] => m !! h
                           | l => Some (default [] (m !! h) ++ l)
                           end.
Proof.
  induction imageRows as [|row rest IH]; intros m w.
  - exists m, []. by repeat split.
  - cbn [group_images].
    destruct (image_key_cases row) as [[Hk Hc]|[Hk Hc]]; rewrite Hc.
    + destruct (IH (push_to (trim (str_or_empty (read_field row "ProductHandle")))
                            (image_row_of row) m) w) as (m' & logs & Hrun & Hq & Hl).
      exists m', logs. split; [done|]. split; [done|]. intros h.
      specialize (Hl h). apply grouped_step in Hl. revert Hl.
      unfold images_of. rewrite filter_cons, Hk.
      by destruct (decide (Some (trim (str_or_empty (read_field row "ProductHandle")))
                           = Some h)).
    + destruct (IH m w) as (m' & logs & Hrun & Hq & Hl).
      eexists m', _. rewrite cbind_clog, Hrun. split; [reflexivity|].
      split; [done|]. intros h. unfold images_of.
      rewrite filter_cons_False by (rewrite Hk; done). apply Hl.
Qed.




Lemma metafield_key_cases (row : gmap string Cell) :
  let handle := trim (str_or_empty (read_field row "ProductHandle")) in
  let ns := trim (str_or_empty (read_field row "Namespace")) in
  let key := trim (str_or_empty (read_field row "Key")) in
  let type := trim (str_or_empty (read_field row "Type")) in
  (metafield_key row = Some handle
   /\ negb (truthy_str handle) || negb (truthy_str ns)
      || negb (truthy_str key) || negb (truthy_str type) = false)
  \/ (metafield_key row = None
      /\ negb (truthy_str handle) || negb (truthy_str ns)
         || negb (truthy_str key) || negb (truthy_str type) = true).
Proof.
  unfold metafield_key.
  destruct (truthy_str (trim (str_or_empty (read_field row "ProductHandle")))),
    (truthy_str (trim (str_or_empty (read_field row "Namespace")))),
    (truthy_str (trim (str_or_empty (read_field row "Key")))),
    (truthy_str (trim (str_or_empty (read_field row "Type")))); cbn; auto.
Qed.

Lemma group_metafields_run (metafieldRows : list (gmap string Cell)) :
  forall (m : gmap string (list MetafieldRow)) (w : World),
  exists m' logs,
    group_metafields metafieldRows m w = mkCli (inr m') w logs
    /\ cli_events logs = []
    /\ forall h, m' !! h = match metafields_of h metafieldRows with
                           | [] => m !! h
                           | l => Some (default [] (m !! h) ++ l)
                           end.
Proof.
  induction metafieldRows as [|row rest IH]; intros m w.
  - exists m, []. by repeat split.
  - cbn [group_metafields].
    destruct (metafield_key_cases row) as [[Hk Hc]|[Hk Hc]]; rewrite Hc.
    + destruct (IH (push_to (trim (str_or_empty (read_field row "ProductHandle")))
                            (metafield_row_of row) m) w) as (m' & logs & Hrun & Hq & Hl).
      exists m', logs. split; [done|]. split; [done|]. intros h.
      specialize (Hl h). apply grouped_step in Hl. revert Hl.
      unfold metafields_of. rewrite filter_cons, Hk.
      by destruct (decide (Some (trim (str_or_empty (read_field row "ProductHandle")))
                           = Some h)).
    + destruct (IH m w) as (m' & logs & Hrun & Hq & Hl).
      eexists m', _. rewrite cbind_clog, Hrun. split; [reflexivity|].
      split; [done|]. intros h. unfold metafields_of.
      rewrite filter_cons_False by (rewrite Hk; done). apply Hl.
Qed.




Lemma push_row_to_map (handle : string) (row : ProductRow)
    (groups : list (string * list ProductRow)) :
  list_to_map (push_row handle row groups)
  =@{gmap string (list ProductRow)} push_to handle row (list_to_map groups).
Proof.
  induction groups as [|[h rs] rest IH]; cbn [push_row].
  - rewrite list_to_map_cons, list_to_map_nil. unfold push_to.
    by rewrite lookup_empty.
  - destruct (String.eqb_spec h handle) as [->|Hne]; rewrite !list_to_map_cons.
    + unfold push_to. rewrite lookup_insert_eq. cbn [default from_option id].
      by rewrite insert_insert_eq.
    + rewrite IH. unfold push_to. rewrite lookup_insert_ne by done.
      by apply insert_insert_ne.
Qed.

Lemma group_rows_run (productRows : list ProductRow) :
  forall (groups : list (string * list ProductRow)) (w : World),
  exists groups' evs,
    group_rows productRows groups w = mkRun (inl groups') w evs
    /\ posts evs = []
    /\ groups'.*1 = groups.*1 ++ set_order (list_to_set (groups.*1))
                                           (omap product_key productRows)
    /\ forall h, (list_to_map groups' : gmap string (list ProductRow)) !! h
                 = match rows_of h productRows with
                   | [] => (list_to_map groups : gmap string (list ProductRow)) !! h
                   | l => Some (default [] ((list_to_map groups
                                             : gmap string (list ProductRow)) !! h) ++ l)
                   end.
Proof.
  induction productRows as [|row rest IH]; intros groups w.
  - exists groups, []. cbn. by rewrite app_nil_r.
  - cbn [group_rows omap list_omap].
    assert (Hkey : product_key row
                   = if truthy_str (trim (str_or_empty (ProductHandle row)))
                     then Some (trim (str_or_empty (ProductHandle row))) else None)
      by done.
    destruct (truthy_str (trim (str_or_empty (ProductHandle row)))) eqn:Hh; cbn [negb];
      rewrite Hkey.
    + set (handle := trim (str_or_empty (ProductHandle row))) in *.
      destruct (IH (push_row handle row groups) w) as (g' & evs & Hrun & Hp & Hk & Hl).
      exists g', evs. split; [done|]. split; [done|]. split.
      * rewrite Hk, push_row_keys. cbn [set_order].
        destruct (decide (handle ∈ groups.*1)) as [Hin|Hin].
        -- rewrite !bool_decide_eq_true_2; [done | by apply elem_of_list_to_set | done].
        -- rewrite !bool_decide_eq_false_2;
             [|by rewrite elem_of_list_to_set | done].
           rewrite <- app_assoc. cbn [app]. do 2 f_equal.
           rewrite list_to_set_app_L. cbn. f_equal.
           apply set_eq. intros x. rewrite !elem_of_union, elem_of_empty. tauto.
      * intros h. specialize (Hl h). rewrite push_row_to_map in Hl.
        apply grouped_step in Hl. revert Hl.
        unfold rows_of. rewrite filter_cons, Hkey.
        by destruct (decide (Some handle = Some h)).
    + destruct (IH groups w) as (g' & evs & Hrun & Hp & Hk & Hl).
      eexists g', _. unfold warn, log. rewrite bind_emit, Hrun.
      split; [reflexivity|]. split; [done|]. split; [done|].
      intros h. unfold rows_of.
      rewrite filter_cons_False by (rewrite Hkey; done). apply Hl.
Qed.



(** The groups made from no group: their keys, and what is under a key. *)
Lemma group_rows_from_nil (productRows : list ProductRow) (w : World) :
  exists groups evs,
    group_rows productRows [] w = mkRun (inl groups) w evs
    /\ posts evs = []
    /\ groups.*1 = set_order ∅ (omap product_key productRows)
    /\ forall h rs, (h, rs) ∈ groups <-> rs = rows_of h productRows /\ rs <> [].
Proof.
  destruct (group_rows_run productRows [] w) as (groups & evs & Hrun & Hp & Hk & Hl).
  rewrite fmap_nil, list_to_set_nil in Hk. cbn [app] in Hk.
  exists groups, evs. split; [done|]. split; [done|]. split; [done|].
  intros h rs.
  rewrite (elem_of_list_to_map (M:=gmap string) groups h rs)
    by (rewrite Hk; apply set_order_NoDup).
  rewrite Hl, list_to_map_nil, lookup_empty.
  destruct (rows_of h productRows) as [|x xs]; cbn.
  - split; [done | by intros [-> ?]].
  - split; [by intros [= <-] | by intros [-> _]].
Qed.


(* ===================================================================== *)
(** ** The parser: a whole file *)
(* ===================================================================== *)

Lemma c_result_cbind {A B} (m : C A) (k : A -> C B) (w : World) :
  c_result (cbind m k w)
  = match c_result (m w) with
    | inr a => c_result (k a (c_after (m w)))
    | inl e => inl e
    end.
Proof. unfold cbind. by destruct (c_result (m w)). Qed.

Lemma quiet_cbind {A B} (m : C A) (k : A -> C B) (w : World) :
  quiet (m w) w -> (forall a, quiet (k a w) w) -> quiet (cbind m k w) w.
Proof.
  intros [Hm1 Hm2] Hk. unfold cbind, quiet.
  destruct (c_result (m w)) as [e|a]; cbn [c_after c_log]; [done|].
  rewrite Hm1. destruct (Hk a) as [Hk1 Hk2].
  by rewrite cli_posts_app, Hm2, Hk2.
Qed.

Lemma quiet_clog (lvl : Level) (msg : StartupMsg) (w : World) :
  quiet (clog lvl msg w) w.
Proof. done. Qed.

Lemma quiet_cret {A} (a : A) (w : World) : quiet (cret a w) w.
Proof. done. Qed.

Lemma quiet_cthrow {A} (e : StartupError) (w : World) : quiet (@cthrow A e w) w.
Proof. done. Qed.

Lemma quiet_of_events {A} (r : CliRun A) (w : World) :
  c_after r = w -> cli_events (c_log r) = [] -> quiet r w.
Proof. intros H1 H2. split; [done|]. unfold cli_posts. by rewrite H2. Qed.

Lemma readSheet_run (workbook : Workbook) (sheetName : string) (w : World) :
  quiet (readSheetAsJson workbook sheetName w) w
  /\ c_result (readSheetAsJson workbook sheetName w)
     = inr (sheet_rows workbook sheetName).
Proof.
  unfold readSheetAsJson, sheet_rows.
  by destruct (Sheets workbook !! sheetName).
Qed.

Lemma validate_run (rows : list (gmap string Cell)) (cols : list string)
    (sheetName : string) (w : World) :
  quiet (validateColumns rows cols sheetName w) w
  /\ c_result (validateColumns rows cols sheetName w)
     = match missing_columns rows cols with
       | [] => inr tt
       | missing => inl (ErrMissingColumns sheetName missing)
       end.
Proof.
  unfold validateColumns, missing_columns. destruct rows as [|firstRow rest]; [done|].
  by destruct (filter (fun col => firstRow !! col = None) cols).
Qed.

Lemma group_products_run (productRows : list ProductRow) (w : World) :
  exists groups,
    quiet (lift (groupProductsByHandle productRows) w) w
    /\ c_result (lift (groupProductsByHandle productRows) w) = inr groups
    /\ groups.*1 = set_order ∅ (omap product_key productRows)
    /\ forall h rs, (h, rs) ∈ groups <-> rs = rows_of h productRows /\ rs <> [].
Proof.
  destruct (group_rows_from_nil productRows w)
    as (groups & evs & Hrun & Hp & Hk & Hl).
  exists groups. unfold lift, quiet, groupProductsByHandle. rewrite Hrun. cbn [result after events c_after c_log c_result].
  unfold cli_posts. by rewrite cli_events_lift.
Qed.

Lemma group_images_quiet (imageRows : list (gmap string Cell)) (w : World) :
  exists m,
    quiet (groupImageByHandle imageRows w) w
    /\ c_result (groupImageByHandle imageRows w) = inr m
    /\ forall h, m !! h = group_lookup (images_of h imageRows).
Proof.
  destruct (group_images_run imageRows ∅ w) as (m & logs & Hrun & Hq & Hl).
  exists m. unfold groupImageByHandle. rewrite Hrun.
  split; [by apply quiet_of_events|]. split; [done|].
  intros h. rewrite Hl, lookup_empty. by destruct (images_of h imageRows).
Qed.

Lemma group_metafields_quiet (metafieldRows : list (gmap string Cell)) (w : World) :
  exists m,
    quiet (groupMetafieldByHandle metafieldRows w) w
    /\ c_result (groupMetafieldByHandle metafieldRows w) = inr m
    /\ forall h, m !! h = group_lookup (metafields_of h metafieldRows).
Proof.
  destruct (group_metafields_run metafieldRows ∅ w) as (m & logs & Hrun & Hq & Hl).
  exists m. unfold groupMetafieldByHandle. rewrite Hrun.
  split; [by apply quiet_of_events|]. split; [done|].
  intros h. rewrite Hl, lookup_empty. by destruct (metafields_of h metafieldRows).
Qed.

(** Parsing never talks to the endpoint. *)
Lemma parseExcelFile_quiet (readFile : string -> option Workbook) (file : string)
    (w : World) :
  quiet (parseExcelFile readFile file w) w.
Proof.
  unfold parseExcelFile.
  apply quiet_cbind; [apply quiet_clog|]. intros _.
  destruct (readFile file) as [workbook|]; [|apply quiet_cthrow].
  apply quiet_cbind; [apply readSheet_run|]. intros [|row rows]; [apply quiet_cthrow|].
  apply quiet_cbind; [apply validate_run|]. intros _.
  apply quiet_cbind.
  { by destruct (group_products_run (map product_row_of (row :: rows)) w) as (? & ? & _). }
  intros groups.
  apply quiet_cbind; [apply quiet_clog|]. intros _.
  apply quiet_cbind; [apply readSheet_run|]. intros imageRows.
  apply quiet_cbind.
  { destruct imageRows; [apply quiet_cret | apply validate_run]. }
  intros _. apply quiet_cbind.
  { by destruct (group_images_quiet imageRows w) as (? & ? & _). }
  intros images. apply quiet_cbind.
  { destruct (0 <? size images)%nat; [apply quiet_clog | apply quiet_cret]. }
  intros _. apply quiet_cbind; [apply readSheet_run|]. intros metafieldRows.
  apply quiet_cbind.
  { destruct metafieldRows; [apply quiet_cret | apply validate_run]. }
  intros _. apply quiet_cbind.
  { by destruct (group_metafields_quiet metafieldRows w) as (? & ? & _). }
  intros metafields. apply quiet_cbind.
  { destruct (0 <? size metafields)%nat; [apply quiet_clog | apply quiet_cret]. }
  intros _. apply quiet_cbind; [apply quiet_clog|]. intros _.
  apply quiet_cbind; [apply quiet_clog|]. intros _. apply quiet_cret.
Qed.

Lemma validate_if_rows_run (rows : list (gmap string Cell)) (cols : list string)
    (sheetName : string) (w : World) :
  let m : C unit := match rows with
                    | _ :: _ => validateColumns rows cols sheetName
                    | [] => cret tt
                    end in
  quiet (m w) w
  /\ c_result (m w)
     = match missing_columns rows cols with
       | [] => inr tt
       | missing => inl (ErrMissingColumns sheetName missing)
       end.
Proof. destruct rows; [done | apply validate_run]. Qed.

Lemma size_note_run (n : nat) (msg : StartupMsg) (w : World) :
  let m : C unit := if (0 <? n)%nat then clog INFO msg else cret tt in
  quiet (m w) w /\ c_result (m w) = inr tt.
Proof. by destruct (0 <? n)%nat. Qed.

Ltac cstep H :=
  rewrite c_result_cbind;
  let Hq := fresh "Hq" in let Hr := fresh "Hr" in
  pose proof H as [[Hq _] Hr];
  cbv zeta in Hq, Hr; rewrite Hr, ?Hq; clear Hq Hr.

(** What [parseExcelFile] returns or throws, case by case. *)
Lemma parseExcelFile_result (readFile : string -> option Workbook) (file : string)
    (w : World) :
  match readFile file with
  | None => c_result (parseExcelFile readFile file w) = inl (ErrReadFile file)
  | Some workbook =>
      let productRows := sheet_rows workbook "Products" in
      let imageRows := sheet_rows workbook "Images" in
      let metafieldRows := sheet_rows workbook "Metafields" in
      exists groups images metafields,
        groups.*1 = set_order ∅ (omap product_key (map product_row_of productRows))
        /\ (forall h rs, (h, rs) ∈ groups
              <-> rs = rows_of h (map product_row_of productRows) /\ rs <> [])
        /\ (forall h, images !! h = group_lookup (images_of h imageRows))
        /\ (forall h, metafields !! h = group_lookup (metafields_of h metafieldRows))
        /\ c_result (parseExcelFile readFile file w)
           = match productRows with
             | [] => inl ErrNoProductData
             | _ :: _ =>
               match missing_columns productRows REQUIRED_PRODUCT_COLUMNS with
               | (_ :: _) as missing => inl (ErrMissingColumns "Products" missing)
               | [] =>
                 match missing_columns imageRows REQUIRED_IMAGE_COLUMNS with
                 | (_ :: _) as missing => inl (ErrMissingColumns "Images" missing)
                 | [] =>
                   match missing_columns metafieldRows REQUIRED_METAFIELD_COLUMNS with
                   | (_ :: _) as missing => inl (ErrMissingColumns "Metafields" missing)
                   | [] =>
                       inr {| pf_grouped := {| productsByHandle := groups;
                                               imagesByHandle := images;
                                               metafieldsByHandle := metafields |};
                              pf_productRows := productRows;
                              pf_imageRows := imageRows;
                              pf_metafieldRows := metafieldRows |}
                   end
                 end
               end
             end
  end.
Proof.
  unfold parseExcelFile. destruct (readFile file) as [workbook|].
  2: { by rewrite c_result_cbind. }
  cbv zeta.
  destruct (group_products_run (map product_row_of (sheet_rows workbook "Products")) w)
    as (groups & Hgq & Hgr & Hgk & Hgl).
  destruct (group_images_quiet (sheet_rows workbook "Images") w)
    as (images & Hiq & Hir & Hil).
  destruct (group_metafields_quiet (sheet_rows workbook "Metafields") w)
    as (metafields & Hmq & Hmr & Hml).
  exists groups, images, metafields.
  split; [done|]. split; [done|]. split; [done|]. split; [done|].
  rewrite c_result_cbind. cbn [clog c_result c_after].
  cstep (readSheet_run workbook "Products" w).
  destruct (sheet_rows workbook "Products") as [|row rows] eqn:Hp; [done|].
  cstep (validate_run (row :: rows) REQUIRED_PRODUCT_COLUMNS "Products" w).
  destruct (missing_columns (row :: rows) REQUIRED_PRODUCT_COLUMNS); [|done].
  cstep (conj Hgq Hgr).
  rewrite c_result_cbind. cbn [clog c_result c_after].
  cstep (readSheet_run workbook "Images" w).
  cstep (validate_if_rows_run (sheet_rows workbook "Images")
           REQUIRED_IMAGE_COLUMNS "Images" w).
  destruct (missing_columns (sheet_rows workbook "Images") REQUIRED_IMAGE_COLUMNS);
    [|done].
  cstep (conj Hiq Hir).
  cstep (size_note_run (size images) (SMsgHandlesWithImages (size images)) w).
  cstep (readSheet_run workbook "Metafields" w).
  cstep (validate_if_rows_run (sheet_rows workbook "Metafields")
           REQUIRED_METAFIELD_COLUMNS "Metafields" w).
  destruct (missing_columns (sheet_rows workbook "Metafields")
              REQUIRED_METAFIELD_COLUMNS); [|done].
  cstep (conj Hmq Hmr).
  cstep (size_note_run (size metafields) (SMsgHandlesWithMetafields (size metafields)) w).
  rewrite c_result_cbind. cbn [clog c_result c_after].
  rewrite c_result_cbind. cbn [clog c_result c_after].
  done.
Qed.



(** X21: A file is rejected for one of three reasons, looked for in this order:
    it cannot be read, its Products sheet has no row, or the first row of a
    sheet lacks a required column (Products before Images before
    Metafields, a later sheet being looked at only when the earlier ones
    passed).  No request has been sent by then. *)
Theorem parseExcelFile_rejects (readFile : string -> option Workbook)
    (file : string) (w : World) (err : StartupError) :
  c_result (parseExcelFile readFile file w) = inl err ->
  quiet (parseExcelFile readFile file w) w
  /\ match readFile file with
     | None => err = ErrReadFile file
     | Some workbook =>
         let missing sheet cols := missing_columns (sheet_rows workbook sheet) cols in
         (sheet_rows workbook "Products" = [] /\ err = ErrNoProductData)
         \/ (sheet_rows workbook "Products" <> []
             /\ missing "Products" REQUIRED_PRODUCT_COLUMNS <> []
             /\ err = ErrMissingColumns "Products"
                        (missing "Products" REQUIRED_PRODUCT_COLUMNS))
         \/ (sheet_rows workbook "Products" <> []
             /\ missing "Products" REQUIRED_PRODUCT_COLUMNS = []
             /\ missing "Images" REQUIRED_IMAGE_COLUMNS <> []
             /\ err = ErrMissingColumns "Images"
                        (missing "Images" REQUIRED_IMAGE_COLUMNS))
         \/ (sheet_rows workbook "Products" <> []
             /\ missing "Products" REQUIRED_PRODUCT_COLUMNS = []
             /\ missing "Images" REQUIRED_IMAGE_COLUMNS = []
             /\ missing "Metafields" REQUIRED_METAFIELD_COLUMNS <> []
             /\ err = ErrMissingColumns "Metafields"
                        (missing "Metafields" REQUIRED_METAFIELD_COLUMNS))
     end.
Proof.
  intros Herr. split; [apply parseExcelFile_quiet|].
  pose proof (parseExcelFile_result readFile file w) as Hres.
  destruct (readFile file) as [workbook|]; [|congruence].
  cbv zeta in *. destruct Hres as (groups & images & metafields & _ & _ & _ & _ & Hres).
  rewrite Hres in Herr. clear Hres.
  destruct (sheet_rows workbook "Products") as [|row rows] eqn:Hprod.
  { left. split; [done | congruence]. }
  right.
  destruct (missing_columns (row :: rows) REQUIRED_PRODUCT_COLUMNS) eqn:Hm1.
  2: { left. split; [done|]. split; [done | congruence]. }
  right.
  destruct (missing_columns (sheet_rows workbook "Images") REQUIRED_IMAGE_COLUMNS)
    eqn:Hm2.
  2: { left. split; [done|]. split; [done|]. split; [done | congruence]. }
  right.
  destruct (missing_columns (sheet_rows workbook "Metafields")
              REQUIRED_METAFIELD_COLUMNS) eqn:Hm3; [done|].
  split; [done|]. split; [done|]. split; [done|]. split; [done | congruence].
Qed.

(** X22: A file is accepted exactly when it can be read, its Products sheet has
    a row, and the first row of every sheet that has rows carries all the
    columns required of that sheet; an absent or empty Images or
    Metafields sheet is accepted. *)
Theorem parseExcelFile_accepts_iff (readFile : string -> option Workbook)
    (file : string) (w : World) :
  (exists parsed, c_result (parseExcelFile readFile file w) = inr parsed)
  <-> exists workbook,
        readFile file = Some workbook
        /\ sheet_rows workbook "Products" <> []
        /\ Forall (fun sc => missing_columns (sheet_rows workbook sc.1) sc.2 = [])
                  REQUIRED_COLUMNS.
Proof.
  pose proof (parseExcelFile_result readFile file w) as Hres.
  destruct (readFile file) as [workbook|].
  2: { rewrite Hres. split; [by intros [? ?] | by intros (? & ? & _)]. }
  cbv zeta in Hres. destruct Hres as (groups & images & metafields & _ & _ & _ & _ & Hres).
  rewrite Hres. clear Hres.
  assert (HF : forall wb,
             Forall (fun sc => missing_columns (sheet_rows wb sc.1) sc.2 = [])
                    REQUIRED_COLUMNS
             <-> missing_columns (sheet_rows wb "Products") REQUIRED_PRODUCT_COLUMNS = []
                 /\ missing_columns (sheet_rows wb "Images") REQUIRED_IMAGE_COLUMNS = []
                 /\ missing_columns (sheet_rows wb "Metafields")
                      REQUIRED_METAFIELD_COLUMNS = []).
  { intros wb. unfold REQUIRED_COLUMNS. rewrite !Forall_cons, Forall_nil.
    cbn [fst snd]. tauto. }
  split.
  - intros [parsed Hp]. exists workbook. split; [done|]. rewrite HF.
    destruct (sheet_rows workbook "Products") as [|row rows]; [done|].
    destruct (missing_columns (row :: rows) REQUIRED_PRODUCT_COLUMNS); [|done].
    destruct (missing_columns (sheet_rows workbook "Images") REQUIRED_IMAGE_COLUMNS);
      [|done].
    by destruct (missing_columns (sheet_rows workbook "Metafields")
                   REQUIRED_METAFIELD_COLUMNS).
  - intros (wb & [= <-] & Hne & Hall). apply HF in Hall as (-> & -> & ->).
    destruct (sheet_rows workbook "Products"); [done|]. by eexists.
Qed.


(* ===================================================================== *)
(** ** The command line: [main] *)
(* ===================================================================== *)

Lemma c_after_cbind {A B} (m : C A) (k : A -> C B) (w : World) :
  c_after (cbind m k w)
  = match c_result (m w) with
    | inr a => c_after (k a (c_after (m w)))
    | inl _ => c_after (m w)
    end.
Proof. unfold cbind. by destruct (c_result (m w)). Qed.

Lemma c_log_cbind {A B} (m : C A) (k : A -> C B) (w : World) :
  c_log (cbind m k w)
  = c_log (m w) ++ match c_result (m w) with
                   | inr a => c_log (k a (c_after (m w)))
                   | inl _ => []
                   end.
Proof. unfold cbind. destruct (c_result (m w)); cbn [c_log]; by rewrite ?app_nil_r. Qed.

Lemma cli_events_log (lvl : Level) (msg : StartupMsg) :
  cli_events [SLog lvl msg] = [].
Proof. reflexivity. Qed.

(** The [try] block of [main]: the first of configuration, parsing and
    sync to fail decides the error; the requests are those of the sync. *)
Lemma main_try_run (env : gmap string string) (readFile : string -> option Workbook)
    (file : string) (dryRun : bool) (w : World) :
  let r := main_try env readFile file dryRun w in
  match getConfig env with
  | inl e => c_result r = inl e /\ c_after r = w /\ cli_events (c_log r) = []
  | inr _ =>
      match c_result (parseExcelFile readFile file w) with
      | inl e => c_result r = inl e /\ c_after r = w /\ cli_posts (c_log r) = []
      | inr parsed =>
          let s := syncAllProductsFromExcel (pf_grouped parsed) dryRun w in
          c_result r = match result s with
                       | inl a => inr a
                       | inr e => inl (ErrSync e)
                       end
          /\ c_after r = after s
          /\ cli_events (c_log r)
             = cli_events (c_log (parseExcelFile readFile file w)) ++ events s
      end
  end.
Proof.
  cbv zeta. unfold main_try.
  rewrite c_result_cbind, c_after_cbind, c_log_cbind. cbn [c_result c_after c_log].
  destruct (getConfig env) as [e|config]; [done|].
  rewrite c_result_cbind, c_after_cbind, c_log_cbind. cbn [clog c_result c_after c_log].
  rewrite c_result_cbind, c_after_cbind, c_log_cbind.
  destruct (parseExcelFile_quiet readFile file w) as [Hw Hposts].
  destruct (c_result (parseExcelFile readFile file w)) as [e|parsed].
  { split; [done|]. split; [done|]. unfold cli_posts in *.
    rewrite !cli_events_app, cli_events_log, !posts_app, Hposts. done. }
  rewrite Hw.
  do 5 (rewrite c_result_cbind, c_after_cbind, c_log_cbind;
        cbn [clog c_result c_after c_log]).
  unfold lift. cbn [c_result c_after c_log].
  split; [done|]. split; [done|].
  rewrite !cli_events_app, !cli_events_log, cli_events_lift.
  by rewrite !app_nil_l.
Qed.


(** [main] after [main_try_run]. *)
Lemma main_run (env : gmap string string) (readFile : string -> option Workbook)
    (file : string) (dryRun : bool) (w : World) :
  let t := main_try env readFile file dryRun w in
  let r := main env readFile file dryRun w in
  c_after r = c_after t
  /\ cli_events (c_log r) = cli_events (c_log t)
  /\ match c_result t with
     | inr _ => c_result r = inr Returned
     | inl err => c_result r = inr (Exited 1)
                  /\ last (c_log r) = Some (SLog ERROR (SMsgFatal err))
     end.
Proof.
  cbv zeta. unfold main.
  destruct (c_result (main_try env readFile file dryRun w)) as [err|[]];
    cbn [c_result c_after c_log]; [|done].
  split; [done|]. split.
  - rewrite cli_events_app. cbn. by rewrite app_nil_r.
  - split; [done | apply last_snoc].
Qed.


Lemma pass_dry_posts (g : Grouped) (w : World) :
  Forall (fun r => is_write r = false)
         (posts (events (syncAllProductsFromExcel g true w))).
Proof.
  unfold syncAllProductsFromExcel, info, log.
  destruct (sync_entries_dry_posts g (productsByHandle g) w) as (H1 & _).
  unfold bind. destruct (result (sync_entries g true (productsByHandle g) w)); [|done].
  cbn [events emit]. rewrite posts_app. cbn. by rewrite app_nil_r.
Qed.


(** X25: Once the configuration is complete and the file accepted, [main] is
    the pass over the parsed groups: same requests in the same order, same
    endpoint state afterwards; it returns when the pass returns, and when
    the pass throws it logs the error last and ends the process with
    status 1. *)
Theorem main_runs_the_pass (env : gmap string string)
    (readFile : string -> option Workbook) (file : string) (dryRun : bool)
    (w : World) (config : Config) (parsed : Parsed) :
  getConfig env = inr config ->
  c_result (parseExcelFile readFile file w) = inr parsed ->
  let s := syncAllProductsFromExcel (pf_grouped parsed) dryRun w in
  let r := main env readFile file dryRun w in
  c_after r = after s
  /\ cli_posts (c_log r) = posts (events s)
  /\ match result s with
     | inl _ => c_result r = inr Returned
     | inr e => c_result r = inr (Exited 1)
                /\ last (c_log r) = Some (SLog ERROR (SMsgFatal (ErrSync e)))
     end.
Proof.
  intros Hc Hp. cbv zeta.
  pose proof (main_try_run env readFile file dryRun w) as Ht.
  pose proof (main_run env readFile file dryRun w) as (Ha & He & Hr).
  cbv zeta in Ht. rewrite Hc, Hp in Ht. destruct Ht as (Ht1 & Ht2 & Ht3).
  destruct (parseExcelFile_quiet readFile file w) as [_ Hq]. unfold cli_posts in *.
  rewrite Ha, He, Ht2, Ht3, posts_app, Hq. split; [done|]. split; [done|].
  rewrite Ht1 in Hr.
  by destruct (result (syncAllProductsFromExcel (pf_grouped parsed) dryRun w)).
Qed.


(** X27: A dry run of the command line never sends a write, whatever the
    environment, the file and the endpoint. *)
Theorem main_dry_run_never_writes (env : gmap string string)
    (readFile : string -> option Workbook) (file : string) (w : World) :
  Forall (fun req => is_write req = false)
         (cli_posts (c_log (main env readFile file true w))).
Proof.
  pose proof (main_try_run env readFile file true w) as Ht.
  pose proof (main_run env readFile file true w) as (_ & He & _).
  cbv zeta in Ht. unfold cli_posts in *. rewrite He.
  destruct (getConfig env) as [e|config].
  { destruct Ht as (_ & _ & ->). constructor. }
  destruct (parseExcelFile_quiet readFile file w) as [_ Hq]. unfold cli_posts in Hq.
  destruct (c_result (parseExcelFile readFile file w)) as [e|parsed].
  { destruct Ht as (_ & _ & ->). constructor. }
  destruct Ht as (_ & _ & ->). rewrite posts_app, Hq. apply pass_dry_posts.
Qed.

(* ===================================================================== *)
(** ** The shape of every call, and the empty group *)
(* ===================================================================== *)



(** X11: A group without rows ends the pass: once its lookup has returned,
    building the payload throws a [TypeError] outside the [try] block, so
    nothing is written for it and the groups after it are not visited, in
    a dry run as in a live one. *)
Theorem empty_group_aborts_pass (g : Grouped) (dryRun : bool) (handle : string)
    (rest : list (string * list ProductRow)) (w : World)
    (existing : option Product) :
  result (fetchProductByHandle handle w) = inl existing ->
  sync_entries g dryRun ((handle, []) :: rest) w
  = mkRun (inr ExTypeError) (after (fetchProductByHandle handle w))
          (EvLog INFO (MsgSyncing handle) :: events (fetchProductByHandle handle w)).
Proof.
  intros Hf.
  assert (Hone : sync_one g dryRun handle [] w
                 = mkRun (inr ExTypeError) (after (fetchProductByHandle handle w))
                         (EvLog INFO (MsgSyncing handle)
                          :: events (fetchProductByHandle handle w))).
  { unfold sync_one, info, log. rewrite bind_emit, (bind_ok _ _ _ _ Hf).
    cbn [buildProductSetInput]. unfold prepend, throw.
    cbn [result after events app]. by rewrite app_nil_r. }
  cbn [sync_entries].
  rewrite (bind_throw _ _ _ ExTypeError) by (by rewrite Hone).
  by rewrite Hone.
Qed.

End Sync.

Arguments mkRun {World A}.
Arguments result {World A}.
Arguments after {World A}.
Arguments events {World A}.

(* ===================================================================== *)
(** ** Worked examples on the scripted endpoint *)
(* ===================================================================== *)



(** C2 on an endpoint that answers 429 to everything: six requests, five
    waits, and the sixth rejection is what the caller gets. *)
Lemma C2_retry_bound_witness :
  let err := too_many_requests None in
  let run := callShopifyGraphQL scripted_post parseFloat_decimal
               PRODUCT_BY_HANDLE_QUERY (VarsHandle "shirt-1")
               (replicate 7 (Rejected err)) in
  result run = inr (ExAxios err)
  /\ after run = [Rejected err]
  /\ length (posts (events run)) = 6%nat
  /\ sleeps (events run) = [Fin 1000; Fin 2000; Fin 4000; Fin 8000; Fin 16000].
Proof.
  intros err run.
  destruct (C2_retry_bound scripted_post parseFloat_decimal
              PRODUCT_BY_HANDLE_QUERY (VarsHandle "shirt-1")
              (replicate 5 err) err
              (replicate 7 (Rejected err)) [Rejected err])
    as (_ & H1 & H2 & H3 & _).
  - cbn. repeat (econstructor; [reflexivity | reflexivity |]). constructor.
  - reflexivity.
  - split; [exact H1|]. split; [exact H2|]. fold run in H3. rewrite H3.
    split; reflexivity.
Defined.

(** C3 on three rejections followed by an answer: the warnings number the
    attempts 1, 2, 3 and the waits are 1000, 2000 and 4000 ms; a second
    call starts again at 1000 ms. *)
Lemma C3_backoff_doubles_witness :
  let err := too_many_requests None in
  let w := [Rejected err; Rejected err; Rejected err;
            Resolved (lookup_answer None None);
            Rejected err; Resolved (lookup_answer None None)] in
  let call := callShopifyGraphQL scripted_post parseFloat_decimal
                PRODUCT_BY_HANDLE_QUERY (VarsHandle "shirt-1") in
  attempts_logged (events (call w)) = [1; 2; 3]%nat
  /\ sleeps (events (call w)) = [Fin 1000; Fin 2000; Fin 4000]
  /\ sleeps (events (call (after (call w)))) = [Fin 1000].
Proof.
  intros err w call.
  destruct (C3_backoff_doubles scripted_post parseFloat_decimal
              PRODUCT_BY_HANDLE_QUERY (VarsHandle "shirt-1")
              [err; err; err] w (drop 3 w))
    as (_ & H1 & H2 & H3 & _).
  - cbn. repeat (econstructor; [reflexivity | reflexivity |]). constructor.
  - cbn; unfold MAX_RETRIES; lia.
  - unfold call. rewrite H1. repeat split; reflexivity.
Defined.


(** C5 on a 500 answer: one request, no wait, the error goes to the
    caller. *)
Lemma C5_no_retry_on_other_outcomes_witness :
  let run := callShopifyGraphQL scripted_post parseFloat_decimal
               PRODUCT_BY_HANDLE_QUERY (VarsHandle "shirt-1")
               [Rejected server_error; Resolved (lookup_answer None None)] in
  result run = inr (ExAxios server_error)
  /\ posts (events run) = [lookup_request "shirt-1"]
  /\ sleeps (events run) = [].
Proof.
  intros run.
  pose proof (C5_no_retry_on_other_outcomes scripted_post parseFloat_decimal
                PRODUCT_BY_HANDLE_QUERY (VarsHandle "shirt-1") []
                [Rejected server_error; Resolved (lookup_answer None None)]
                [Rejected server_error; Resolved (lookup_answer None None)]
                [Resolved (lookup_answer None None)]
                (Rejected server_error)
                (rejects_nil _ _ _) (Nat.le_0_l _) eq_refl eq_refl) as (H1 & H2 & H3).
  fold run in H1, H2, H3. rewrite H2, H3, H1. repeat split; reflexivity.
Defined.



(** The payload of that run, computed. *)
Example second_run_payload_ids :
  let existing := sample_product [sample_node "V1" "S1" "I1"; sample_node "V2" "S2" "I2"] in
  let rows := [sample_row "S2" "Large" (CNumber 4);
               sample_row "S9" "Huge" (CString "");
               sample_row "S1" "Small" (CNumber 10)] in
  (fun input => (map vi_id (psi_variants input), map vi_sku (psi_variants input)))
    <$> buildProductSetInput string_of_integer number_of_decimal "shirt-1" rows
          (Some existing) [] []
  = Some ([Some "V2"; None; Some "V1"], [Some "S2"; Some "S9"; Some "S1"]).
Proof. reflexivity. Qed.

(** C7, the failing input: two grouping keys, and a 500 answer to the
    lookup of the first.  The error leaves [syncAllProductsFromExcel] and
    the second key is never started; the same answer to the upsert of the
    first key is caught and the pass goes on. *)
Theorem C7_lookup_failure_aborts_pass :
  let g := sample_grouped [("shirt-1", [sample_row "S1" "Small" (CNumber 10)]);
                           ("shirt-2", [sample_row "S3" "Small" (CNumber 5)])] in
  let sync := syncAllProductsFromExcel scripted_post parseFloat_decimal
                string_of_integer number_of_decimal sample_location g false in
  (let run := sync [Rejected server_error;
                    Resolved (lookup_answer None None);
                    Resolved (upsert_answer None [])] in
   result run = inr (ExAxios server_error)
   /\ posts (events run) = [lookup_request "shirt-1"]
   /\ keys_started (events run) = ["shirt-1"])
  /\
  (let run := sync [Resolved (lookup_answer None None);
                    Rejected server_error;
                    Resolved (lookup_answer None None);
                    Resolved (upsert_answer None [])] in
   result run = inl tt
   /\ In (EvLog ERROR (MsgFailedUpsert "shirt-1")) (events run)
   /\ keys_started (events run) = ["shirt-1"; "shirt-2"]).
Proof.
  intros g sync. split.
  - repeat split; reflexivity.
  - split; [reflexivity|]. split; [|reflexivity].
    vm_compute. do 6 right. by left.
Qed.


(** The whole iteration of that example, computed: the variants of the
    upsert request and the quantity lines of the inventory request. *)
Example shirt_example_run :
  let rows := [sample_row "S1" "Small" (CNumber 10);
               sample_row "S2" "Large" (CString "")] in
  let w := [Resolved (lookup_answer None (Some (sample_product [sample_node "V1" "S1" "I1"])));
            Resolved (upsert_answer (Some (sample_product [])) []);
            Resolved (lookup_answer None
                        (Some (sample_product [sample_node "V1" "S1" "I1";
                                               sample_node "V2" "S2" "I2"])));
            Resolved inventory_answer] in
  let run := sync_one scripted_post parseFloat_decimal string_of_integer
               number_of_decimal sample_location (sample_grouped [])
               false "shirt-1" rows w in
  map (fun r => match variables r with
                | VarsHandle _ => inl None
                | VarsProductSet _ input =>
                    inl (Some (map (fun vi => (vi_id vi, vi_sku vi)) (psi_variants input)))
                | VarsInventory input =>
                    inr (map (fun l => (inventoryItemId l, quantity l)) (isq_quantities input))
                end) (posts (events run))
  = [inl None;
     inl (Some [(Some "V1", Some "S1"); (None, Some "S2")]);
     inl None;
     inr [("I1", Fin 10)]].
Proof. reflexivity. Qed.



(* ===================================================================== *)
(** ** Worked examples of the further properties *)
(* ===================================================================== *)

Arguments mkCli {World A}.
Arguments c_result {World A}.
Arguments c_after {World A}.
Arguments c_log {World A}.

(** A [retry-after] of 120 seconds at the second rejection: the second
    wait is 120000 ms, above its floor of 2000 ms. *)
Lemma backoff_is_a_floor_witness :
  let w := [Rejected (too_many_requests None);
            Rejected (too_many_requests (Some "120"));
            Resolved (lookup_answer None None)] in
  sleeps (events (callShopifyGraphQL scripted_post parseFloat_decimal
                    PRODUCT_BY_HANDLE_QUERY (VarsHandle "shirt-1") w)) !! 1%nat
  = Some (Fin 120000)
  /\ js_le (Fin (inject_Z (1000 * 2 ^ Z.of_nat 1))) (Fin 120000) = true.
Proof.
  intros w. split; [reflexivity|].
  apply (backoff_is_a_floor scripted_post parseFloat_decimal
           PRODUCT_BY_HANDLE_QUERY (VarsHandle "shirt-1")
           [too_many_requests None; too_many_requests (Some "120")]
           w [Resolved (lookup_answer None None)] 1%nat (Fin 120000)).
  - repeat (econstructor; [reflexivity | reflexivity |]). constructor.
  - cbn; unfold MAX_RETRIES; lia.
  - cbn; lia.
  - reflexivity.
Defined.

(** 30 credits left and a restore rate of 0: the answer is returned with
    no wait. *)
Lemma no_pacing_without_restore_witness :
  let data := lookup_answer (Some (sample_cost (JNumber 30) (JNumber 0))) None in
  let run := callShopifyGraphQL scripted_post parseFloat_decimal
               PRODUCT_BY_HANDLE_QUERY (VarsHandle "shirt-1") [Resolved data] in
  result run = inl data /\ sleeps (events run) = [].
Proof.
  intros data run.
  destruct (no_pacing_without_restore scripted_post parseFloat_decimal
              PRODUCT_BY_HANDLE_QUERY (VarsHandle "shirt-1") []
              [Resolved data] [Resolved data] [] data 30%Q 0%Q) as (H1 & _ & H3).
  - constructor.
  - cbn; lia.
  - reflexivity.
  - reflexivity.
  - discriminate.
  - split; [exact H1|]. fold run in H3. rewrite H3. reflexivity.
Defined.

(** With a restore rate of 10 per second, 30 credits left mean 7000 ms and
    10 credits left mean 9000 ms. *)
Lemma throttleWaitMs_monotone_witness :
  (0 < throttleWaitMs 30 10 <= throttleWaitMs 10 10)%Z
  /\ throttleWaitMs 30 10 = 7000%Z /\ throttleWaitMs 10 10 = 9000%Z.
Proof.
  split; [|split; reflexivity].
  apply (throttleWaitMs_monotone 10 30 10); [reflexivity | discriminate | reflexivity].
Defined.

(** A sheet without quantities: the reconciliation looks the product up
    and writes nothing. *)
Lemma no_quantity_no_inventory_write_witness :
  let rows := [sample_row "S1" "Small" (CString ""); sample_row "S2" "Large" CUndefined] in
  let w := [Resolved (lookup_answer None
                        (Some (sample_product [sample_node "V1" "S1" "I1"])))] in
  let run := syncInventoryForProduct scripted_post parseFloat_decimal
               string_of_integer number_of_decimal sample_location
               "shirt-1" rows w in
  Forall (fun r => r = lookup_request "shirt-1") (posts (events run))
  /\ posts (events run) = [lookup_request "shirt-1"].
Proof.
  intros rows w run. split; [|reflexivity].
  apply (no_quantity_no_inventory_write scripted_post parseFloat_decimal
           string_of_integer number_of_decimal sample_location "shirt-1" rows w).
  repeat constructor.
Defined.


(** A lookup answered with GraphQL errors and no data: the product is
    taken as new and upserted without variant identifiers. *)
Lemma errored_lookup_reads_as_not_found_witness :
  let rows := [sample_row "S1" "Small" (CNumber 10)] in
  let w := [Resolved throttled_answer; Resolved (upsert_answer None [])] in
  result (fetchProductByHandle scripted_post parseFloat_decimal "shirt-1" w)
  = inl None
  /\ exists input,
       Forall (fun vi => vi_id vi = None) (psi_variants input)
       /\ In (EvPost (upsert_request "shirt-1" input))
             (events (sync_one scripted_post parseFloat_decimal string_of_integer
                        number_of_decimal sample_location (sample_grouped [])
                        false "shirt-1" rows w)).
Proof.
  intros rows w.
  destruct (errored_lookup_reads_as_not_found scripted_post parseFloat_decimal
              string_of_integer number_of_decimal sample_location
              (sample_grouped []) "shirt-1" rows w
              [Resolved (upsert_answer None [])] throttled_answer)
    as (H1 & input & tl & _ & Hids & Hev).
  - reflexivity.
  - reflexivity.
  - reflexivity.
  - discriminate.
  - split; [exact H1|]. exists input. split; [exact Hids|].
    rewrite Hev. do 4 right. left. reflexivity.
Defined.

(** An upsert answered with a user error, in a pass over two products: the
    second product is still looked up. *)
Lemma user_errors_isolated_witness :
  let rows := [sample_row "S1" "Small" (CNumber 10)] in
  let rest := [("shirt-2", [sample_row "S3" "Small" (CNumber 5)])] in
  let bad := {| ue_field := "title"; ue_message := "Title is too long" |} in
  let w := [Resolved (lookup_answer None None);
            Resolved (upsert_answer None [bad]);
            Resolved (lookup_answer None None)] in
  In (EvPost (lookup_request "shirt-2"))
     (events (sync_entries scripted_post parseFloat_decimal string_of_integer
                number_of_decimal sample_location (sample_grouped []) false
                (("shirt-1", rows) :: rest) w)).
Proof.
  intros rows rest bad w.
  eassert (Hb : buildProductSetInput string_of_integer number_of_decimal
                  "shirt-1" rows None [] [] = Some _) by reflexivity.
  rewrite (user_errors_isolated scripted_post parseFloat_decimal string_of_integer
             number_of_decimal sample_location (sample_grouped []) "shirt-1"
             rows rest w None _ (upsert_answer None [bad])
             {| ps_product := None; ps_userErrors := Some [bad] |} bad []
             eq_refl Hb eq_refl eq_refl eq_refl).
  unfold prepend. cbn [events]. apply in_or_app. right.
  vm_compute. right. left. reflexivity.
Defined.



(** A workbook whose Images sheet has no [ImageSrc] column: the file is
    rejected for that column, and nothing was sent. *)
Lemma parseExcelFile_rejects_witness :
  let workbook :=
    {| Sheets := {[ "Products" := [sample_product_cells "shirt-1" "S1" "Small"
                                     (CNumber 10)];
                    "Images" := [ {[ "ProductHandle" := CString "shirt-1" ]} ] ]} |} in
  let readFile := fun _ : string => Some workbook in
  let r := parseExcelFile string_of_integer readFile "products.xlsx"
             ([] : list Outcome) in
  c_result r = inl (ErrMissingColumns "Images" ["ImageSrc"])
  /\ c_after r = [] /\ cli_posts (c_log r) = [].
Proof.
  intros workbook readFile r.
  assert (Hr : c_result r = inl (ErrMissingColumns "Images" ["ImageSrc"]))
    by (vm_compute; reflexivity).
  split; [exact Hr|].
  destruct (parseExcelFile_rejects parseFloat_decimal string_of_integer
              number_of_decimal sample_location readFile "products.xlsx"
              [] (ErrMissingColumns "Images" ["ImageSrc"]) Hr) as [Hq _].
  exact Hq.
Defined.



(** A dry run over the sample workbook on an endpoint that knows neither
    product: two lookups, and [main] returns. *)
Lemma main_runs_the_pass_witness :
  let w := [Resolved (lookup_answer None None); Resolved (lookup_answer None None)] in
  let r := main scripted_post parseFloat_decimal string_of_integer
             number_of_decimal sample_location sample_env sample_readFile
             "products.xlsx" true w in
  c_result r = inr Returned
  /\ c_after r = []
  /\ cli_posts (c_log r) = [lookup_request "shirt-1"; lookup_request "shirt-2"].
Proof.
  intros w r.
  eassert (Hc : getConfig sample_env = inr _) by (vm_compute; reflexivity).
  assert (Hp : c_result (parseExcelFile string_of_integer sample_readFile
                           "products.xlsx" w) = inr sample_parsed)
    by (vm_compute; reflexivity).
  destruct (main_runs_the_pass scripted_post parseFloat_decimal string_of_integer
              number_of_decimal sample_location sample_env sample_readFile
              "products.xlsx" true w _ sample_parsed Hc Hp) as (Ha & Hposts & Hres).
  fold r in Ha, Hposts, Hres. rewrite Ha, Hposts.
  split; [|split; vm_compute; reflexivity].
  revert Hres. vm_compute. intros H; exact H.
Defined.


(** A pass handed an empty group: it ends there with a [TypeError], after
    the one lookup, and the second product is not visited. *)
Lemma empty_group_aborts_pass_witness :
  let w := [Resolved (lookup_answer None None); Resolved (lookup_answer None None)] in
  let run := sync_entries scripted_post parseFloat_decimal string_of_integer
               number_of_decimal sample_location (sample_grouped []) false
               [("shirt-1", []); ("shirt-2", [sample_row "S3" "Small" (CNumber 5)])]
               w in
  result run = inr ExTypeError
  /\ posts (events run) = [lookup_request "shirt-1"].
Proof.
  intros w run. unfold run.
  rewrite (empty_group_aborts_pass scripted_post parseFloat_decimal
             string_of_integer number_of_decimal sample_location
             (sample_grouped []) false "shirt-1"
             [("shirt-2", [sample_row "S3" "Small" (CNumber 5)])] w None eq_refl).
  split; reflexivity.
Defined.
